(** * The Canvas tab's SDXL outpaint graph builder

    A shallow embedding of [buildCanvasSDXLOutpaintGraph]
    (features/nodes/util/graphBuilders/buildCanvasSDXLOutpaintGraph.ts)
    and the properties of the graph it assembles.

    JavaScript values are modelled as follows: a [number] is a binary64
    float, an object is a finite map from property names to values, an
    array is a list.  The function mutates one graph object in place and
    hands it to six collaborators that mutate it further; the embedding
    threads that single graph through the calls. *)

From Stdlib Require Import Floats.PrimFloat.
From stdpp Require Import gmap strings list fin_maps relations.

Set Warnings "-inexact-float".

(** ** Values and objects *)

(** [MainModelField]: the selected model, an object the builder only
    tests for presence and copies into the model loader node. *)
Record MainModelField := {
  model_name : string;
  base_model : string;
  model_type : string;
}.

(** [ImageDTO]: an uploaded image.  The builder never looks inside. *)
Record ImageDTO := {
  image_name : string;
}.

(** The values a node property can hold. *)
Inductive Value :=
| VUndefined
| VBool (b : bool)
| VNum (x : float)
| VStr (s : string)
| VModel (m : MainModelField)
| VImage (i : ImageDTO).

(** An invocation (a node) is a plain object. *)
Abbreviation Invocation := (gmap string Value).

(** An object literal [{ k1: v1, ..., kn: vn }]: the properties are
    defined from left to right, a repeated key keeps the last value. *)
Definition obj {V : Type} (props : list (string * V)) : gmap string V :=
  foldl (λ o kv, <[kv.1 := kv.2]> o) ∅ props.

(** The [type] tag of a node. *)
Definition type_of (n : Invocation) : option Value := n !! "type".

(** ** Graphs *)

Record Port := {
  node_id : string;
  field : string;
}.

Record Edge := {
  source : Port;
  destination : Port;
}.

(** [NonNullableGraph]. *)
Record Graph := {
  id : string;
  nodes : gmap string Invocation;
  edges : list Edge;
}.

#[global] Instance Port_eq_dec : EqDecision Port.
Proof. solve_decision. Defined.

#[global] Instance Edge_eq_dec : EqDecision Edge.
Proof. solve_decision. Defined.

Definition edge (s sf d df : string) : Edge :=
  {| source := {| node_id := s; field := sf |};
     destination := {| node_id := d; field := df |} |}.

(** [graph.nodes[k] = n] *)
Definition set_node (k : string) (n : Invocation) (g : Graph) : Graph :=
  {| id := id g; nodes := <[k := n]> (nodes g); edges := edges g |}.

(** [graph.edges.push(e)] *)
Definition push_edge (e : Edge) (g : Graph) : Graph :=
  {| id := id g; nodes := nodes g; edges := edges g ++ [e] |}.

(** ** The application state read by the builder *)

(** [state.generation].  [gen_width] and [gen_height] are the generic
    width and height parameters of the store; the builder does not read
    them (line 80). *)
Record GenerationState := {
  positivePrompt : string;
  negativePrompt : string;
  model : option MainModelField;
  cfgScale : float;
  scheduler : string;
  steps : float;
  img2imgStrength : float;
  shouldFitToWidthHeight : bool;
  iterations : float;
  seed : float;
  shouldRandomizeSeed : bool;
  vaePrecision : string;
  shouldUseNoiseSettings : bool;
  shouldUseCpuNoise : bool;
  maskBlur : float;
  maskBlurMethod : string;
  tileSize : float;
  infillMethod : string;
  gen_width : float;
  gen_height : float;
}.

(** [state.sdxl] *)
Record SDXLState := {
  positiveStylePrompt : string;
  negativeStylePrompt : string;
  shouldConcatSDXLStylePrompt : bool;
  shouldUseSDXLRefiner : bool;
  refinerStart : float;
}.

Record Dimensions := {
  width : float;
  height : float;
}.

(** [state.canvas] *)
Record CanvasState := {
  boundingBoxDimensions : Dimensions;
  scaledBoundingBoxDimensions : Dimensions;
  boundingBoxScaleMethod : string;
  shouldAutoSave : bool;
}.

(** [state.system] *)
Record SystemState := {
  shouldUseNSFWChecker : bool;
  shouldUseWatermarker : bool;
}.

Record RootState := {
  generation : GenerationState;
  sdxl : SDXLState;
  canvas : CanvasState;
  system : SystemState;
}.

(** ** Exceptions, the log and the calls to collaborators *)

Inductive exn :=
| Error (message : string)
| TypeError
| Exception (name message : string).

Inductive outcome (A : Type) :=
| Returns (a : A)
| Throws (e : exn).
Arguments Returns {A} a.
Arguments Throws {A} e.

(** The six graph mutators imported by the builder. *)
Inductive collaborator :=
| AddSDXLRefinerToGraph
| AddVAEToGraph
| AddSDXLLoRAsToGraph
| AddControlNetToLinearGraph
| AddNSFWCheckerToGraph
| AddWatermarkerToGraph.

#[global] Instance collaborator_eq_dec : EqDecision collaborator.
Proof. solve_decision. Defined.

(** What a run does besides computing its result: it may write to the
    error log and it calls collaborators, with the node ids it passes. *)
Inductive event :=
| LogError (message : string)
| Call (f : collaborator) (args : list string).

(** A computation: the events it performed, in order, and how it ended. *)
Definition M (A : Type) : Type := list event * outcome A.

#[global] Instance M_ret : MRet M := λ A a, ([], Returns a).

#[global] Instance M_bind : MBind M := λ A B k m,
  match m.2 with
  | Returns a => (m.1 ++ (k a).1, (k a).2)
  | Throws e => (m.1, Throws e)
  end.

Definition throw {A : Type} (e : exn) : M A := ([], Throws e).

Definition log_error (message : string) : M unit := ([LogError message], Returns tt).

(** A call to a collaborator: the call is recorded, then the callee's
    outcome is that of the call. *)
Definition call {A : Type} (f : collaborator) (args : list string) (r : outcome A) : M A :=
  ([Call f args], r).

Definition events {A : Type} (m : M A) : list event := m.1.

Definition result {A : Type} (m : M A) : outcome A := m.2.

(** The collaborators that were called, in call order. *)
Definition calls (t : list event) : list collaborator :=
  omap (λ e, match e with Call f _ => Some f | LogError _ => None end) t.

(** ** Node ids and collaborators *)

(** The node ids of [./constants].  That module is not part of the
    sources at hand, so the ids are parameters of the development. *)
Class Constants := {
  CANVAS_OUTPUT : string;
  COLOR_CORRECT : string;
  INPAINT : string;
  INPAINT_GRAPH : string;
  INPAINT_IMAGE : string;
  INPAINT_INFILL : string;
  ITERATE : string;
  LATENTS_TO_IMAGE : string;
  MASK_BLUR : string;
  MASK_COMBINE : string;
  MASK_FROM_ALPHA : string;
  NEGATIVE_CONDITIONING : string;
  NOISE : string;
  POSITIVE_CONDITIONING : string;
  RANDOM_INT : string;
  RANGE_OF_SIZE : string;
  SDXL_MODEL_LOADER : string;
}.

(** The graph mutators [addSDXLRefinerToGraph], [addVAEToGraph],
    [addSDXLLoRAsToGraph], [addControlNetToLinearGraph],
    [addNSFWCheckerToGraph] and [addWatermarkerToGraph] live in modules of
    their own, outside the sources at hand.  Each receives the state, the
    graph and one or two node ids, and mutates the graph; here it returns
    the graph as it left it, or throws. *)
Class Collaborators := {
  addSDXLRefinerToGraph : RootState → Graph → string → outcome Graph;
  addVAEToGraph : RootState → Graph → string → outcome Graph;
  addSDXLLoRAsToGraph : RootState → Graph → string → string → outcome Graph;
  addControlNetToLinearGraph : RootState → Graph → string → outcome Graph;
  addNSFWCheckerToGraph : RootState → Graph → string → outcome Graph;
  addWatermarkerToGraph : RootState → Graph → string → outcome Graph;
}.

(** ** The builder *)

Section builder.
Context {K : Constants} {C : Collaborators}.

(** Lines 90-92. *)
Definition use_cpu (state : RootState) : bool :=
  if shouldUseNoiseSettings (generation state)
  then shouldUseCpuNoise (generation state)
  else shouldUseCpuNoise (generation state).

(** Lines 94-109. *)
Definition infillNode (state : RootState) (canvasInitImage : ImageDTO) : Invocation :=
  let infillNode :=
    obj [("type", VStr "infill_tile");
         ("id", VStr INPAINT_INFILL);
         ("is_intermediate", VBool true);
         ("image", VImage canvasInitImage);
         ("tile_size", VNum (tileSize (generation state)))] in
  if decide (infillMethod (generation state) = "patchmatch") then
    obj [("type", VStr "infill_patchmatch");
         ("id", VStr INPAINT_INFILL);
         ("is_intermediate", VBool true);
         ("image", VImage canvasInitImage)]
  else infillNode.

(** The [id] property of a node, as the key expression [[infillNode.id]]
    reads it; a node without a string id is filed under ["undefined"]. *)
Definition id_of (n : Invocation) : string :=
  match n !! "id" with
  | Some (VStr s) => s
  | _ => "undefined"
  end.

(** [vaePrecision === 'fp32' ? true : false] *)
Definition fp32 (state : RootState) : bool :=
  if decide (vaePrecision (generation state) = "fp32") then true else false.

(** The template literal [`${a} ${b}`]. *)
Definition template (a b : string) : string := a +:+ " " +:+ b.

(** Lines 113-209: the node map of the graph literal. *)
Definition initial_nodes (state : RootState) (model : MainModelField)
    (canvasInitImage : ImageDTO) (canvasMaskImage : option ImageDTO)
    : gmap string Invocation :=
  let g := generation state in
  let x := sdxl state in
  let infillNode := infillNode state canvasInitImage in
  obj [
    (SDXL_MODEL_LOADER,
      obj [("type", VStr "sdxl_model_loader");
           ("id", VStr SDXL_MODEL_LOADER);
           ("model", VModel model)]);
    (POSITIVE_CONDITIONING,
      obj [("type", VStr "sdxl_compel_prompt");
           ("id", VStr POSITIVE_CONDITIONING);
           ("prompt", VStr (positivePrompt g));
           ("style", VStr (if shouldConcatSDXLStylePrompt x
                           then template (positivePrompt g) (positiveStylePrompt x)
                           else positiveStylePrompt x))]);
    (NEGATIVE_CONDITIONING,
      obj [("type", VStr "sdxl_compel_prompt");
           ("id", VStr NEGATIVE_CONDITIONING);
           ("prompt", VStr (negativePrompt g));
           ("style", VStr (if shouldConcatSDXLStylePrompt x
                           then template (negativePrompt g) (negativeStylePrompt x)
                           else negativeStylePrompt x))]);
    (id_of infillNode, infillNode);
    (INPAINT_IMAGE,
      obj [("type", VStr "i2l");
           ("id", VStr INPAINT_IMAGE);
           ("is_intermediate", VBool true);
           ("fp32", VBool (fp32 state))]);
    (MASK_FROM_ALPHA,
      obj [("type", VStr "tomask");
           ("id", VStr MASK_FROM_ALPHA);
           ("is_intermediate", VBool true);
           ("image", VImage canvasInitImage)]);
    (MASK_COMBINE,
      obj [("type", VStr "mask_combine");
           ("id", VStr MASK_COMBINE);
           ("is_intermediate", VBool true);
           ("mask2", from_option VImage VUndefined canvasMaskImage)]);
    (MASK_BLUR,
      obj [("type", VStr "img_blur");
           ("id", VStr MASK_BLUR);
           ("is_intermediate", VBool true);
           ("radius", VNum (maskBlur g));
           ("blur_type", VStr (maskBlurMethod g))]);
    (NOISE,
      obj [("type", VStr "noise");
           ("id", VStr NOISE);
           ("width", VNum (width (boundingBoxDimensions (canvas state))));
           ("height", VNum (height (boundingBoxDimensions (canvas state))));
           ("use_cpu", VBool (use_cpu state));
           ("is_intermediate", VBool true)]);
    (INPAINT,
      obj [("type", VStr "denoise_latents");
           ("id", VStr INPAINT);
           ("is_intermediate", VBool true);
           ("steps", VNum (steps g));
           ("cfg_scale", VNum (cfgScale g));
           ("scheduler", VStr (scheduler g));
           ("denoising_start", VNum (1 - img2imgStrength g));
           ("denoising_end", VNum (if shouldUseSDXLRefiner x then refinerStart x else 1))]);
    (LATENTS_TO_IMAGE,
      obj [("type", VStr "l2i");
           ("id", VStr LATENTS_TO_IMAGE);
           ("is_intermediate", VBool true);
           ("fp32", VBool (fp32 state))]);
    (COLOR_CORRECT,
      obj [("type", VStr "color_correct");
           ("id", VStr COLOR_CORRECT);
           ("is_intermediate", VBool true)]);
    (CANVAS_OUTPUT,
      obj [("type", VStr "img_paste");
           ("id", VStr CANVAS_OUTPUT);
           ("is_intermediate", VBool true)]);
    (RANGE_OF_SIZE,
      obj [("type", VStr "range_of_size");
           ("id", VStr RANGE_OF_SIZE);
           ("is_intermediate", VBool true);
           ("size", VNum (iterations g));
           ("step", VNum 1)]);
    (ITERATE,
      obj [("type", VStr "iterate");
           ("id", VStr ITERATE);
           ("is_intermediate", VBool true)])
  ].

(** Lines 210-439: the edge array of the graph literal. *)
Definition initial_edges : list Edge := [
  edge SDXL_MODEL_LOADER "unet" INPAINT "unet";
  edge SDXL_MODEL_LOADER "clip" POSITIVE_CONDITIONING "clip";
  edge SDXL_MODEL_LOADER "clip2" POSITIVE_CONDITIONING "clip2";
  edge SDXL_MODEL_LOADER "clip" NEGATIVE_CONDITIONING "clip";
  edge SDXL_MODEL_LOADER "clip2" NEGATIVE_CONDITIONING "clip2";
  edge INPAINT_INFILL "image" INPAINT_IMAGE "image";
  edge MASK_FROM_ALPHA "mask" MASK_COMBINE "mask1";
  edge MASK_COMBINE "image" MASK_BLUR "image";
  edge POSITIVE_CONDITIONING "conditioning" INPAINT "positive_conditioning";
  edge NEGATIVE_CONDITIONING "conditioning" INPAINT "negative_conditioning";
  edge NOISE "noise" INPAINT "noise";
  edge INPAINT_IMAGE "latents" INPAINT "latents";
  edge MASK_BLUR "image" INPAINT "mask";
  edge RANGE_OF_SIZE "collection" ITERATE "collection";
  edge ITERATE "item" NOISE "seed";
  edge INPAINT "latents" LATENTS_TO_IMAGE "latents";
  edge INPAINT_INFILL "image" COLOR_CORRECT "reference";
  edge LATENTS_TO_IMAGE "image" COLOR_CORRECT "image";
  edge MASK_BLUR "image" COLOR_CORRECT "mask";
  edge INPAINT_INFILL "image" CANVAS_OUTPUT "base_image";
  edge COLOR_CORRECT "image" CANVAS_OUTPUT "image";
  edge MASK_BLUR "image" CANVAS_OUTPUT "mask"
].

(** Lines 111-440: [const graph = { id, nodes, edges }]. *)
Definition initial_graph (state : RootState) (model : MainModelField)
    (canvasInitImage : ImageDTO) (canvasMaskImage : option ImageDTO) : Graph :=
  {| id := INPAINT_GRAPH;
     nodes := initial_nodes state model canvasInitImage canvasMaskImage;
     edges := initial_edges |}.

(** Lines 450-468, "handle seed".  The write
    [graph.nodes[RANGE_OF_SIZE].start = seed] sets a property of the object
    stored under that key; the runtime raises a [TypeError] when no object
    is stored there. *)
Definition handle_seed (state : RootState) (graph : Graph) : M Graph :=
  if shouldRandomizeSeed (generation state) then
    let randomIntNode := obj [("id", VStr RANDOM_INT); ("type", VStr "rand_int")] in
    let graph := set_node RANDOM_INT randomIntNode graph in
    mret (push_edge (edge RANDOM_INT "a" RANGE_OF_SIZE "start") graph)
  else
    match nodes graph !! RANGE_OF_SIZE with
    | Some n =>
        mret (set_node RANGE_OF_SIZE (<["start" := VNum (seed (generation state))]> n) graph)
    | None => throw TypeError
    end.

(** Lines 40-488. *)
Definition buildCanvasSDXLOutpaintGraph (state : RootState)
    (canvasInitImage : ImageDTO) (canvasMaskImage : option ImageDTO) : M Graph :=
  match model (generation state) with
  | None =>
      log_error "No model found in state";;
      throw (Error "No model found in state")
  | Some model =>
      let graph := initial_graph state model canvasInitImage canvasMaskImage in
      graph ← (if shouldUseSDXLRefiner (sdxl state)
               then call AddSDXLRefinerToGraph [INPAINT]
                      (addSDXLRefinerToGraph state graph INPAINT)
               else mret graph);
      graph ← call AddVAEToGraph [SDXL_MODEL_LOADER]
                (addVAEToGraph state graph SDXL_MODEL_LOADER);
      graph ← handle_seed state graph;
      graph ← call AddSDXLLoRAsToGraph [INPAINT; SDXL_MODEL_LOADER]
                (addSDXLLoRAsToGraph state graph INPAINT SDXL_MODEL_LOADER);
      graph ← call AddControlNetToLinearGraph [INPAINT]
                (addControlNetToLinearGraph state graph INPAINT);
      graph ← (if shouldUseNSFWChecker (system state)
               then call AddNSFWCheckerToGraph [CANVAS_OUTPUT]
                      (addNSFWCheckerToGraph state graph CANVAS_OUTPUT)
               else mret graph);
      graph ← (if shouldUseWatermarker (system state)
               then call AddWatermarkerToGraph [CANVAS_OUTPUT]
                      (addWatermarkerToGraph state graph CANVAS_OUTPUT)
               else mret graph);
      mret graph
  end.

(** ** The stages as the builder runs them *)

(** A call the builder makes: the callee, the node ids passed, and the
    callee applied to the state and those ids. *)
Record stage := {
  callee : collaborator;
  args : list string;
  run : Graph → outcome Graph;
}.

(** The event a call to the stage leaves in the log. *)
Definition call_event (s : stage) : event := Call (callee s) (args s).

Definition refiner_stage (state : RootState) : stage :=
  {| callee := AddSDXLRefinerToGraph; args := [INPAINT];
     run := λ g, addSDXLRefinerToGraph state g INPAINT |}.

Definition vae_stage (state : RootState) : stage :=
  {| callee := AddVAEToGraph; args := [SDXL_MODEL_LOADER];
     run := λ g, addVAEToGraph state g SDXL_MODEL_LOADER |}.

Definition lora_stage (state : RootState) : stage :=
  {| callee := AddSDXLLoRAsToGraph; args := [INPAINT; SDXL_MODEL_LOADER];
     run := λ g, addSDXLLoRAsToGraph state g INPAINT SDXL_MODEL_LOADER |}.

Definition controlnet_stage (state : RootState) : stage :=
  {| callee := AddControlNetToLinearGraph; args := [INPAINT];
     run := λ g, addControlNetToLinearGraph state g INPAINT |}.

Definition nsfw_stage (state : RootState) : stage :=
  {| callee := AddNSFWCheckerToGraph; args := [CANVAS_OUTPUT];
     run := λ g, addNSFWCheckerToGraph state g CANVAS_OUTPUT |}.

Definition watermark_stage (state : RootState) : stage :=
  {| callee := AddWatermarkerToGraph; args := [CANVAS_OUTPUT];
     run := λ g, addWatermarkerToGraph state g CANVAS_OUTPUT |}.

(** The calls made before the seed is handled (lines 442-448) ... *)
Definition stages_before_seed (state : RootState) : list stage :=
  (if shouldUseSDXLRefiner (sdxl state) then [refiner_stage state] else [])
  ++ [vae_stage state].

(** ... and after it (lines 470-485). *)
Definition stages_after_seed (state : RootState) : list stage :=
  [lora_stage state; controlnet_stage state]
  ++ (if shouldUseNSFWChecker (system state) then [nsfw_stage state] else [])
  ++ (if shouldUseWatermarker (system state) then [watermark_stage state] else []).

Definition stages (state : RootState) : list stage :=
  stages_before_seed state ++ stages_after_seed state.

(** Running stages one after the other on the same graph. *)
Fixpoint run_stages (l : list stage) (g : Graph) : outcome Graph :=
  match l with
  | [] => Returns g
  | s :: l =>
      match run s g with
      | Returns g' => run_stages l g'
      | Throws e => Throws e
      end
  end.

(** The same, with each call logged. *)
Fixpoint call_stages (l : list stage) (g : Graph) : M Graph :=
  match l with
  | [] => mret g
  | s :: l => g' ← call (callee s) (args s) (run s g); call_stages l g'
  end.

(** A stage preserves a property of the graph when every graph it returns
    has the property if the graph it received had it. *)
Definition preserves (I : Graph → Prop) (s : stage) : Prop :=
  ∀ g g', I g → run s g = Returns g' → I g'.

(** Every call made for this state preserves [I]. *)
Definition collaborators_preserve (state : RootState) (I : Graph → Prop) : Prop :=
  Forall (preserves I) (stages state).

(** Every call made for this state returns. *)
Definition collaborators_return (state : RootState) : Prop :=
  Forall (λ s, ∀ g, ∃ g', run s g = Returns g') (stages state).

(** Every call made gives the same outcome for both states. *)
Definition collaborators_agree (state1 state2 : RootState) : Prop :=
  Forall2 (λ s1 s2, ∀ g, run s1 g = run s2 g) (stages state1) (stages state2).

(** ** Observations on graphs *)

(** [graph.nodes[k]?.[f]] *)
Definition node_field (g : Graph) (k f : string) : option Value :=
  nodes g !! k ≫= (.!! f).

(** No call made for this state changes what [graph.nodes[k]?.[f]] reads. *)
Definition leave_field (state : RootState) (k f : string) : Prop :=
  ∀ v, collaborators_preserve state (λ g, node_field g k f = v).

(** The node stored under [k] has type tag [t]. *)
Definition has_type (g : Graph) (k t : string) : Prop :=
  node_field g k "type" = Some (VStr t).

(** An infill node, of either variant. *)
Definition is_infill (n : Invocation) : Prop :=
  type_of n = Some (VStr "infill_tile") ∨ type_of n = Some (VStr "infill_patchmatch").

(** [k] is the one key under which the graph stores an infill node, and
    that node is [n]. *)
Definition sole_infill (k : string) (n : Invocation) (g : Graph) : Prop :=
  nodes g !! k = Some n ∧ is_infill n ∧
  ∀ k' n', nodes g !! k' = Some n' → is_infill n' → k' = k.

(** No node of the graph is a random-integer node. *)
Definition no_rand_int (g : Graph) : Prop :=
  ∀ k n, nodes g !! k = Some n → type_of n ≠ Some (VStr "rand_int").

(** The edges that write to a destination port. *)
Definition writers (g : Graph) (p : Port) : list Edge :=
  filter (λ e, destination e = p) (edges g).

(** The port the seed is handled through. *)
Definition start_port : Port := {| node_id := RANGE_OF_SIZE; field := "start" |}.

Definition seed_edge : Edge := edge RANDOM_INT "a" RANGE_OF_SIZE "start".

(** The ids of the fifteen nodes of the graph literal, listed so that every
    edge of the literal points from an earlier to a later id: first those
    that do not depend on the range, then the range and what it feeds. *)
Definition ids_before_range : list string := [
  SDXL_MODEL_LOADER; POSITIVE_CONDITIONING; NEGATIVE_CONDITIONING;
  INPAINT_INFILL; INPAINT_IMAGE; MASK_FROM_ALPHA; MASK_COMBINE; MASK_BLUR
].

Definition ids_from_range : list string := [
  RANGE_OF_SIZE; ITERATE; NOISE; INPAINT; LATENTS_TO_IMAGE; COLOR_CORRECT;
  CANVAS_OUTPUT
].

Definition literal_ids : list string := ids_before_range ++ ids_from_range.

(** The same with the random integer node, which feeds the range. *)
Definition node_ids : list string := ids_before_range ++ RANDOM_INT :: ids_from_range.

(** The constants name sixteen different nodes. *)
Definition distinct_ids : Prop := NoDup node_ids.

(** The collaborators called for this state leave the seed's part of the
    graph alone: they change neither [size], [step] nor [start] of the range
    node, they keep a random integer node where there is one and add none
    where there is none, and they neither add nor remove an edge that
    writes to the range's [start]. *)
Definition leave_seed_subgraph (state : RootState) : Prop :=
  leave_field state RANGE_OF_SIZE "size" ∧
  leave_field state RANGE_OF_SIZE "step" ∧
  leave_field state RANGE_OF_SIZE "start" ∧
  collaborators_preserve state (λ g, has_type g RANDOM_INT "rand_int") ∧
  collaborators_preserve state no_rand_int ∧
  ∀ ws, collaborators_preserve state (λ g, writers g start_port = ws).

(** ** Structural properties of a graph *)

(** The structural properties the spec's data model asks of a graph.  They
    are properties to prove or refute of the graphs built, not code: the
    sources contain no validator. *)

(** Every node is stored under its own id, so no two nodes share one. *)
Definition ids_unique (g : Graph) : Prop :=
  ∀ k n, nodes g !! k = Some n → n !! "id" = Some (VStr k).

(** Both endpoints of every edge are nodes of the graph. *)
Definition endpoints_resolvable (g : Graph) : Prop :=
  ∀ e, e ∈ edges g →
    is_Some (nodes g !! node_id (source e)) ∧
    is_Some (nodes g !! node_id (destination e)).

(** No two edges write to the same destination port. *)
Definition single_writer (g : Graph) : Prop :=
  NoDup (destination <$> edges g).

(** [a] feeds [b] directly. *)
Definition feeds (g : Graph) (a b : string) : Prop :=
  ∃ e, e ∈ edges g ∧ node_id (source e) = a ∧ node_id (destination e) = b.

(** No node feeds itself, directly or through other nodes. *)
Definition acyclic (g : Graph) : Prop :=
  ∀ a, ¬ tc (feeds g) a a.

(** [order] is a topological sort of the graph: it lists every node once
    and every edge points forward in it. *)
Definition topological_sort (order : list string) (g : Graph) : Prop :=
  NoDup order ∧
  (∀ k, is_Some (nodes g !! k) ↔ k ∈ order) ∧
  ∀ e, e ∈ edges g →
    ∃ i j, order !! i = Some (node_id (source e)) ∧
           order !! j = Some (node_id (destination e)) ∧ i < j.

(** The anchor nodes: model loader, both conditioning encoders, output. *)
Definition anchors_present (g : Graph) : Prop :=
  is_Some (nodes g !! SDXL_MODEL_LOADER) ∧
  is_Some (nodes g !! POSITIVE_CONDITIONING) ∧
  is_Some (nodes g !! NEGATIVE_CONDITIONING) ∧
  is_Some (nodes g !! CANVAS_OUTPUT).

(** A graph the validator of the spec would accept. *)
Definition valid (g : Graph) : Prop :=
  ids_unique g ∧ endpoints_resolvable g ∧ single_writer g ∧ acyclic g ∧
  anchors_present g.

(** ** The order of the augmentation stages

    As the spec lists it: refiner if enabled, VAE, LoRA, ControlNet, content
    filter if enabled, watermark if enabled. *)

Definition augmentation_order (state : RootState) : list collaborator :=
  (if shouldUseSDXLRefiner (sdxl state) then [AddSDXLRefinerToGraph] else [])
  ++ [AddVAEToGraph; AddSDXLLoRAsToGraph; AddControlNetToLinearGraph]
  ++ (if shouldUseNSFWChecker (system state) then [AddNSFWCheckerToGraph] else [])
  ++ (if shouldUseWatermarker (system state) then [AddWatermarkerToGraph] else []).

End builder.

(** ** States that differ in one flag *)

Definition set_shouldUseNoiseSettings (b : bool) (state : RootState) : RootState :=
  let g := generation state in
  {| generation :=
       {| positivePrompt := positivePrompt g;
          negativePrompt := negativePrompt g;
          model := model g;
          cfgScale := cfgScale g;
          scheduler := scheduler g;
          steps := steps g;
          img2imgStrength := img2imgStrength g;
          shouldFitToWidthHeight := shouldFitToWidthHeight g;
          iterations := iterations g;
          seed := seed g;
          shouldRandomizeSeed := shouldRandomizeSeed g;
          vaePrecision := vaePrecision g;
          shouldUseNoiseSettings := b;
          shouldUseCpuNoise := shouldUseCpuNoise g;
          maskBlur := maskBlur g;
          maskBlurMethod := maskBlurMethod g;
          tileSize := tileSize g;
          infillMethod := infillMethod g;
          gen_width := gen_width g;
          gen_height := gen_height g |};
     sdxl := sdxl state;
     canvas := canvas state;
     system := system state |}.

(** The two states are the same except, possibly, for the
    [shouldUseNoiseSettings] flag. *)
Definition differ_only_in_noise_settings (state1 state2 : RootState) : Prop :=
  state2 = set_shouldUseNoiseSettings (shouldUseNoiseSettings (generation state2)) state1.

(** ** A sample setting

    Concrete node ids, collaborators and states on which the builder can
    be run.  The ids are sixteen different strings; the collaborators are
    stand-ins with the shape the builder expects, they are not the
    project's own. *)

Module Sample.

Definition ids : Constants := {|
  CANVAS_OUTPUT := "canvas_output";
  COLOR_CORRECT := "color_correct";
  INPAINT := "inpaint";
  INPAINT_GRAPH := "inpaint_graph";
  INPAINT_IMAGE := "inpaint_image";
  INPAINT_INFILL := "inpaint_infill";
  ITERATE := "iterate";
  LATENTS_TO_IMAGE := "latents_to_image";
  MASK_BLUR := "mask_blur";
  MASK_COMBINE := "mask_combine";
  MASK_FROM_ALPHA := "tomask";
  NEGATIVE_CONDITIONING := "negative_conditioning";
  NOISE := "noise";
  POSITIVE_CONDITIONING := "positive_conditioning";
  RANDOM_INT := "rand_int";
  RANGE_OF_SIZE := "range_of_size";
  SDXL_MODEL_LOADER := "sdxl_model_loader";
|}.

(** Adds a node [k] of type [type] that reads the image of [anchor]. *)
Definition append_after (k type anchor : string) (g : Graph) : Graph :=
  push_edge (edge anchor "image" k "image")
    (set_node k (obj [("id", VStr k); ("type", VStr type);
                      ("is_intermediate", VBool true)]) g).

(** The refiner, VAE, LoRA and ControlNet stand-ins find nothing configured
    and leave the graph alone; the NSFW checker and the watermarker each
    append one node behind the output. *)
Definition collaborators : Collaborators := {|
  addSDXLRefinerToGraph := λ _ g _, Returns g;
  addVAEToGraph := λ _ g _, Returns g;
  addSDXLLoRAsToGraph := λ _ g _ _, Returns g;
  addControlNetToLinearGraph := λ _ g _, Returns g;
  addNSFWCheckerToGraph := λ _ g a,
    Returns (append_after "nsfw_checker" "img_nsfw" a g);
  addWatermarkerToGraph := λ _ g a,
    Returns (append_after "invisible_watermark" "img_watermark"
               (match nodes g !! "nsfw_checker" with Some _ => "nsfw_checker" | None => a end) g);
|}.

(** As [collaborators], but the watermarker wires its input from a node
    that is not in the graph. *)
Definition careless_collaborators : Collaborators := {|
  addSDXLRefinerToGraph := λ _ g _, Returns g;
  addVAEToGraph := λ _ g _, Returns g;
  addSDXLLoRAsToGraph := λ _ g _ _, Returns g;
  addControlNetToLinearGraph := λ _ g _, Returns g;
  addNSFWCheckerToGraph := λ _ g a,
    Returns (append_after "nsfw_checker" "img_nsfw" a g);
  addWatermarkerToGraph := λ _ g a,
    Returns (append_after "invisible_watermark" "img_watermark" "nsfw_checker" g);
|}.

(** As [collaborators], but the VAE stage already wires the start of the
    range from the model loader it is given. *)
Definition eager_collaborators : Collaborators := {|
  addSDXLRefinerToGraph := λ _ g _, Returns g;
  addVAEToGraph := λ _ g a,
    Returns (push_edge (edge a "seed" "range_of_size" "start") g);
  addSDXLLoRAsToGraph := λ _ g _ _, Returns g;
  addControlNetToLinearGraph := λ _ g _, Returns g;
  addNSFWCheckerToGraph := λ _ g a,
    Returns (append_after "nsfw_checker" "img_nsfw" a g);
  addWatermarkerToGraph := λ _ g a,
    Returns (append_after "invisible_watermark" "img_watermark"
               (match nodes g !! "nsfw_checker" with Some _ => "nsfw_checker" | None => a end) g);
|}.

Definition sdxl_base : MainModelField :=
  {| model_name := "stable-diffusion-xl-base-1-0"; base_model := "sdxl";
     model_type := "main" |}.

Definition init_image : ImageDTO := {| image_name := "canvas-init.png" |}.

Definition mask_image : ImageDTO := {| image_name := "canvas-mask.png" |}.

(** A state: strength 0.7, refiner hand-off 0.8, 4 iterations, seed 42, a
    768 by 512 bounding box next to generic 1024 by 1024 parameters, and
    the given model, flags and infill method. *)
Definition state (model : option MainModelField) (randomize refiner nsfw watermark : bool)
    (infill : string) (noise_settings : bool) : RootState :=
  {| generation :=
       {| positivePrompt := "a lighthouse at dusk";
          negativePrompt := "blurry";
          model := model;
          cfgScale := 7.5;
          scheduler := "euler";
          steps := 30;
          img2imgStrength := 0.7;
          shouldFitToWidthHeight := true;
          iterations := 4;
          seed := 42;
          shouldRandomizeSeed := randomize;
          vaePrecision := "fp32";
          shouldUseNoiseSettings := noise_settings;
          shouldUseCpuNoise := true;
          maskBlur := 16;
          maskBlurMethod := "box";
          tileSize := 32;
          infillMethod := infill;
          gen_width := 1024;
          gen_height := 1024 |};
     sdxl :=
       {| positiveStylePrompt := "oil painting";
          negativeStylePrompt := "";
          shouldConcatSDXLStylePrompt := true;
          shouldUseSDXLRefiner := refiner;
          refinerStart := 0.8 |};
     canvas :=
       {| boundingBoxDimensions := {| width := 768; height := 512 |};
          scaledBoundingBoxDimensions := {| width := 1024; height := 1024 |};
          boundingBoxScaleMethod := "auto";
          shouldAutoSave := false |};
     system :=
       {| shouldUseNSFWChecker := nsfw;
          shouldUseWatermarker := watermark |} |}.

(** The builder on the sample ids, with the given collaborators. *)
Definition run (c : Collaborators) (state : RootState)
    (canvasInitImage : ImageDTO) (canvasMaskImage : option ImageDTO) : M Graph :=
  buildCanvasSDXLOutpaintGraph (K := ids) (C := c) state canvasInitImage canvasMaskImage.

(** The graph a run returned; the empty graph stands for a run that threw. *)
Definition finished (c : Collaborators) (state : RootState)
    (canvasInitImage : ImageDTO) (canvasMaskImage : option ImageDTO) : Graph :=
  match result (run c state canvasInitImage canvasMaskImage) with
  | Returns g => g
  | Throws _ => {| id := ""; nodes := ∅; edges := [] |}
  end.

End Sample.

(** ** More states that differ in one setting *)

(** The state with another generation record. *)
Definition with_generation (g : GenerationState) (state : RootState) : RootState :=
  {| generation := g; sdxl := sdxl state; canvas := canvas state; system := system state |}.

Definition set_seed (x : float) (state : RootState) : RootState :=
  let g := generation state in
  with_generation {|
     positivePrompt := positivePrompt g;
     negativePrompt := negativePrompt g;
     model := model g;
     cfgScale := cfgScale g;
     scheduler := scheduler g;
     steps := steps g;
     img2imgStrength := img2imgStrength g;
     shouldFitToWidthHeight := shouldFitToWidthHeight g;
     iterations := iterations g;
     seed := x;
     shouldRandomizeSeed := shouldRandomizeSeed g;
     vaePrecision := vaePrecision g;
     shouldUseNoiseSettings := shouldUseNoiseSettings g;
     shouldUseCpuNoise := shouldUseCpuNoise g;
     maskBlur := maskBlur g;
     maskBlurMethod := maskBlurMethod g;
     tileSize := tileSize g;
     infillMethod := infillMethod g;
     gen_width := gen_width g;
     gen_height := gen_height g |} state.

Definition set_tileSize (x : float) (state : RootState) : RootState :=
  let g := generation state in
  with_generation {|
     positivePrompt := positivePrompt g;
     negativePrompt := negativePrompt g;
     model := model g;
     cfgScale := cfgScale g;
     scheduler := scheduler g;
     steps := steps g;
     img2imgStrength := img2imgStrength g;
     shouldFitToWidthHeight := shouldFitToWidthHeight g;
     iterations := iterations g;
     seed := seed g;
     shouldRandomizeSeed := shouldRandomizeSeed g;
     vaePrecision := vaePrecision g;
     shouldUseNoiseSettings := shouldUseNoiseSettings g;
     shouldUseCpuNoise := shouldUseCpuNoise g;
     maskBlur := maskBlur g;
     maskBlurMethod := maskBlurMethod g;
     tileSize := x;
     infillMethod := infillMethod g;
     gen_width := gen_width g;
     gen_height := gen_height g |} state.

Definition set_refinerStart (x : float) (state : RootState) : RootState :=
  {| generation := generation state;
     sdxl :=
       {| positiveStylePrompt := positiveStylePrompt (sdxl state);
          negativeStylePrompt := negativeStylePrompt (sdxl state);
          shouldConcatSDXLStylePrompt := shouldConcatSDXLStylePrompt (sdxl state);
          shouldUseSDXLRefiner := shouldUseSDXLRefiner (sdxl state);
          refinerStart := x |};
     canvas := canvas state;
     system := system state |}.

(** The state with other values for the four settings the builder takes
    out of the state and never uses: [shouldFitToWidthHeight] (line 54),
    [scaledBoundingBoxDimensions], [boundingBoxScaleMethod] and
    [shouldAutoSave] (lines 84-88). *)
Definition set_unused_settings (fit : bool) (scaled : Dimensions) (method : string)
    (autosave : bool) (state : RootState) : RootState :=
  let g := generation state in
  {| generation := {|
          positivePrompt := positivePrompt g;
          negativePrompt := negativePrompt g;
          model := model g;
          cfgScale := cfgScale g;
          scheduler := scheduler g;
          steps := steps g;
          img2imgStrength := img2imgStrength g;
          shouldFitToWidthHeight := fit;
          iterations := iterations g;
          seed := seed g;
          shouldRandomizeSeed := shouldRandomizeSeed g;
          vaePrecision := vaePrecision g;
          shouldUseNoiseSettings := shouldUseNoiseSettings g;
          shouldUseCpuNoise := shouldUseCpuNoise g;
          maskBlur := maskBlur g;
          maskBlurMethod := maskBlurMethod g;
          tileSize := tileSize g;
          infillMethod := infillMethod g;
          gen_width := gen_width g;
          gen_height := gen_height g |};
     sdxl := sdxl state;
     canvas :=
       {| boundingBoxDimensions := boundingBoxDimensions (canvas state);
          scaledBoundingBoxDimensions := scaled;
          boundingBoxScaleMethod := method;
          shouldAutoSave := autosave |};
     system := system state |}.

Section more_frames.
Context {K : Constants} {C : Collaborators}.

(** No call made for this state changes what is stored under [k]. *)
Definition leave_node (state : RootState) (k : string) : Prop :=
  ∀ v, collaborators_preserve state (λ g, nodes g !! k = v).

(** The two states switch the same optional stages on. *)
Definition same_stage_flags (state1 state2 : RootState) : Prop :=
  shouldUseSDXLRefiner (sdxl state2) = shouldUseSDXLRefiner (sdxl state1) ∧
  shouldUseNSFWChecker (system state2) = shouldUseNSFWChecker (system state1) ∧
  shouldUseWatermarker (system state2) = shouldUseWatermarker (system state1).

(** The graph literal with the seed handled on it directly. *)
Definition own_graph (state : RootState) (model : MainModelField)
    (canvasInitImage : ImageDTO) (canvasMaskImage : option ImageDTO) : M Graph :=
  handle_seed state (initial_graph state model canvasInitImage canvasMaskImage).

End more_frames.

(** ** Collaborators that go wrong

    Stand-ins on the sample ids: one set in which the ControlNet stage
    throws, one in which the VAE stage removes the range node. *)

Module Faulty.

Definition controlnet_failure : exn := Exception "ControlNetError" "no processor".

Definition throwing_collaborators : Collaborators := {|
  addSDXLRefinerToGraph := λ _ g _, Returns g;
  addVAEToGraph := λ _ g _, Returns g;
  addSDXLLoRAsToGraph := λ _ g _ _, Returns g;
  addControlNetToLinearGraph := λ _ _ _, Throws controlnet_failure;
  addNSFWCheckerToGraph := λ _ g a,
    Returns (Sample.append_after "nsfw_checker" "img_nsfw" a g);
  addWatermarkerToGraph := λ _ g a,
    Returns (Sample.append_after "invisible_watermark" "img_watermark" a g);
|}.

Definition pruning_collaborators : Collaborators := {|
  addSDXLRefinerToGraph := λ _ g _, Returns g;
  addVAEToGraph := λ _ g _,
    Returns {| id := id g; nodes := delete "range_of_size" (nodes g); edges := edges g |};
  addSDXLLoRAsToGraph := λ _ g _ _, Returns g;
  addControlNetToLinearGraph := λ _ g _, Returns g;
  addNSFWCheckerToGraph := λ _ g a,
    Returns (Sample.append_after "nsfw_checker" "img_nsfw" a g);
  addWatermarkerToGraph := λ _ g a,
    Returns (Sample.append_after "invisible_watermark" "img_watermark" a g);
|}.

End Faulty.

(** ** Running a computation *)

Lemma result_ret {A : Type} (a : A) : result (mret a : M A) = Returns a.
Proof. done. Qed.

(** ** Distinct ids *)

Section structure.
Context {K : Constants} {C : Collaborators}.

Lemma distinct_ids_lookup (i j : nat) (a b : string) :
  distinct_ids → node_ids !! i = Some a → node_ids !! j = Some b → i ≠ j → a ≠ b.
Proof.
  intros Hd Hi Hj Hne ->. apply Hne. exact (NoDup_lookup _ _ _ _ Hd Hi Hj).
Qed.

End structure.

Ltac index_in x l :=
  lazymatch l with
  | x :: _ => constr:(0)
  | _ :: ?l' => let n := index_in x l' in constr:(S n)
  end.

(** Solves [a ≠ b] for two of the builder's node ids. *)
Ltac ids_ne Hd :=
  lazymatch goal with
  | |- ?a ≠ ?b =>
      let l := eval cbv [node_ids ids_before_range ids_from_range app] in node_ids in
      let i := index_in a l in
      let j := index_in b l in
      exact (distinct_ids_lookup i j a b Hd eq_refl eq_refl ltac:(lia))
  | |- ?a = ?b → False => change (a ≠ b); ids_ne Hd
  end.

(** Reads a key of a map built by a chain of inserts. *)
Ltac read_nodes Hd :=
  repeat first
    [ rewrite lookup_insert_eq
    | rewrite lookup_insert_ne by ids_ne Hd
    | rewrite lookup_empty ].

Section building.
Context {K : Constants} {C : Collaborators}.

Lemma infillNode_id state canvasInitImage :
  id_of (infillNode state canvasInitImage) = INPAINT_INFILL.
Proof. unfold infillNode. case_decide; reflexivity. Qed.

End building.


(** ** The shape of a run *)

Section runs.
Context {K : Constants} {C : Collaborators}.

(** With a model, the builder runs the stages before the seed, handles the
    seed, runs the stages after it and returns the graph it then holds. *)
Lemma build_result state canvasInitImage canvasMaskImage md :
  model (generation state) = Some md →
  result (buildCanvasSDXLOutpaintGraph state canvasInitImage canvasMaskImage) =
    match run_stages (stages_before_seed state)
            (initial_graph state md canvasInitImage canvasMaskImage) with
    | Returns g1 =>
        match result (handle_seed state g1) with
        | Returns g2 => run_stages (stages_after_seed state) g2
        | Throws e => Throws e
        end
    | Throws e => Throws e
    end.
Proof.
  intros Hm. unfold buildCanvasSDXLOutpaintGraph, stages_before_seed, stages_after_seed.
  rewrite Hm.
  destruct (shouldUseSDXLRefiner (sdxl state)), (shouldUseNSFWChecker (system state)),
    (shouldUseWatermarker (system state));
    cbn [app run_stages run refiner_stage vae_stage lora_stage controlnet_stage
         nsfw_stage watermark_stage];
    unfold result, mbind, M_bind, call, mret, M_ret; cbn [fst snd];
    repeat (case_match; cbn [fst snd]; try done).
Qed.

(** The same for the whole computation, log included. *)
Lemma build_staged state canvasInitImage canvasMaskImage md :
  model (generation state) = Some md →
  buildCanvasSDXLOutpaintGraph state canvasInitImage canvasMaskImage =
    (g1 ← call_stages (stages_before_seed state)
            (initial_graph state md canvasInitImage canvasMaskImage);
     g2 ← handle_seed state g1;
     call_stages (stages_after_seed state) g2).
Proof.
  intros Hm. unfold buildCanvasSDXLOutpaintGraph, stages_before_seed, stages_after_seed.
  rewrite Hm.
  destruct (shouldUseSDXLRefiner (sdxl state)), (shouldUseNSFWChecker (system state)),
    (shouldUseWatermarker (system state));
    cbn [app call_stages run callee args refiner_stage vae_stage lora_stage
         controlnet_stage nsfw_stage watermark_stage];
    unfold mbind, M_bind, call, mret, M_ret; cbn [fst snd];
    repeat (case_match; cbn [fst snd]; try done);
    rewrite ?app_nil_r, <- ?app_assoc; reflexivity.
Qed.

Lemma call_stages_ext l1 l2 g :
  Forall2 (λ s1 s2, callee s1 = callee s2 ∧ args s1 = args s2 ∧
                    ∀ g, run s1 g = run s2 g) l1 l2 →
  call_stages l1 g = call_stages l2 g.
Proof.
  intros Hl. revert g. induction Hl as [|s1 s2 l1 l2 (Hc & Ha & Hr) _ IH]; intros g; cbn.
  - done.
  - rewrite Hc, Ha, Hr. unfold mbind, M_bind, call; cbn [fst snd].
    destruct (run s2 g); [by rewrite IH | done].
Qed.

Lemma build_no_model state canvasInitImage canvasMaskImage :
  model (generation state) = None →
  buildCanvasSDXLOutpaintGraph state canvasInitImage canvasMaskImage =
    ([LogError "No model found in state"], Throws (Error "No model found in state")).
Proof. intros Hm. unfold buildCanvasSDXLOutpaintGraph. by rewrite Hm. Qed.

Lemma handle_seed_events state g : events (handle_seed state g) = [].
Proof. unfold handle_seed. repeat case_match; done. Qed.

Lemma handle_seed_fst state g : (handle_seed state g).1 = [].
Proof. apply handle_seed_events. Qed.

(** A run that returns has called every stage of [stages], in that order,
    and has logged nothing else. *)
Lemma build_events_returns state canvasInitImage canvasMaskImage g :
  result (buildCanvasSDXLOutpaintGraph state canvasInitImage canvasMaskImage) = Returns g →
  events (buildCanvasSDXLOutpaintGraph state canvasInitImage canvasMaskImage) =
    call_event <$> stages state.
Proof.
  unfold buildCanvasSDXLOutpaintGraph, stages, stages_before_seed, stages_after_seed.
  destruct (model (generation state)) as [md|]; [|done].
  destruct (shouldUseSDXLRefiner (sdxl state)), (shouldUseNSFWChecker (system state)),
    (shouldUseWatermarker (system state));
    unfold result, events, mbind, M_bind, call, mret, M_ret; cbn [fst snd];
    repeat (case_match; cbn [fst snd]; try done);
    intros _; rewrite ?handle_seed_fst; reflexivity.
Qed.

(** A run with a model calls the stages of [stages] in that order and
    stops at the first failure. *)
Lemma build_events_prefix state canvasInitImage canvasMaskImage md :
  model (generation state) = Some md →
  events (buildCanvasSDXLOutpaintGraph state canvasInitImage canvasMaskImage)
    `prefix_of` call_event <$> stages state.
Proof.
  intros Hm.
  unfold buildCanvasSDXLOutpaintGraph, stages, stages_before_seed, stages_after_seed.
  rewrite Hm.
  destruct (shouldUseSDXLRefiner (sdxl state)), (shouldUseNSFWChecker (system state)),
    (shouldUseWatermarker (system state));
    unfold events, mbind, M_bind, call, mret, M_ret; cbn [fst snd];
    repeat (case_match; cbn [fst snd]);
    rewrite ?handle_seed_fst;
    cbn [app fmap list_fmap];
    repeat (apply prefix_cons; try done);
    try apply prefix_nil.
Qed.

End runs.

(** ** Properties carried through a run *)

Section phases.
Context {K : Constants} {C : Collaborators}.

Lemma run_stages_preserves (I : Graph → Prop) l g g' :
  Forall (preserves I) l → I g → run_stages l g = Returns g' → I g'.
Proof.
  intros Hl. revert g. induction Hl as [|s l Hs _ IH]; intros g Hg; cbn.
  - by intros [= <-].
  - destruct (run s g) as [g1|e] eqn:Hrun; [|done]. apply IH. by eapply Hs.
Qed.

Lemma run_stages_returns l g :
  Forall (λ s, ∀ g, ∃ g', run s g = Returns g') l → ∃ g', run_stages l g = Returns g'.
Proof.
  intros Hl. revert g. induction Hl as [|s l Hs _ IH]; intros g; cbn; [eauto|].
  destruct (Hs g) as [g1 ->]. apply IH.
Qed.

(** A property [I1] that holds of the initial graph and that the stages
    before the seed preserve, turned into [I2] by the handling of the seed
    and preserved from then on, holds of the graph returned. *)
Lemma build_phases state canvasInitImage canvasMaskImage md (I1 I2 : Graph → Prop) g :
  model (generation state) = Some md →
  I1 (initial_graph state md canvasInitImage canvasMaskImage) →
  Forall (preserves I1) (stages_before_seed state) →
  (∀ g1 g2, I1 g1 → result (handle_seed state g1) = Returns g2 → I2 g2) →
  Forall (preserves I2) (stages_after_seed state) →
  result (buildCanvasSDXLOutpaintGraph state canvasInitImage canvasMaskImage) = Returns g →
  I2 g.
Proof.
  intros Hm H0 Hbefore Hseed Hafter. rewrite (build_result _ _ _ _ Hm).
  destruct (run_stages (stages_before_seed state) _) as [g1|] eqn:H1; [|done].
  destruct (result (handle_seed state g1)) as [g2|] eqn:H2; [|done].
  intros H3. eapply run_stages_preserves; [exact Hafter| |exact H3].
  eapply Hseed; [|exact H2]. eapply run_stages_preserves; [exact Hbefore|exact H0|exact H1].
Qed.

Lemma build_invariant state canvasInitImage canvasMaskImage md (I : Graph → Prop) g :
  model (generation state) = Some md →
  I (initial_graph state md canvasInitImage canvasMaskImage) →
  collaborators_preserve state I →
  (∀ g1 g2, I g1 → result (handle_seed state g1) = Returns g2 → I g2) →
  result (buildCanvasSDXLOutpaintGraph state canvasInitImage canvasMaskImage) = Returns g →
  I g.
Proof.
  intros Hm H0 [Hb Ha]%Forall_app Hseed. by apply (build_phases _ _ _ md I I).
Qed.

Lemma build_returns_model state canvasInitImage canvasMaskImage g :
  result (buildCanvasSDXLOutpaintGraph state canvasInitImage canvasMaskImage) = Returns g →
  ∃ md, model (generation state) = Some md.
Proof.
  destruct (model (generation state)) as [md|] eqn:Hm; [eauto|].
  by rewrite (build_no_model _ _ _ Hm).
Qed.

(** *** What handling the seed does *)

Lemma handle_seed_random state g :
  shouldRandomizeSeed (generation state) = true →
  handle_seed state g =
    mret (push_edge seed_edge
            (set_node RANDOM_INT (obj [("id", VStr RANDOM_INT); ("type", VStr "rand_int")]) g)).
Proof. intros Hr. unfold handle_seed. by rewrite Hr. Qed.

Lemma handle_seed_fixed state g n :
  shouldRandomizeSeed (generation state) = false →
  nodes g !! RANGE_OF_SIZE = Some n →
  handle_seed state g =
    mret (set_node RANGE_OF_SIZE (<["start" := VNum (seed (generation state))]> n) g).
Proof. intros Hr Hn. unfold handle_seed. by rewrite Hr, Hn. Qed.

Lemma handle_seed_fixed_missing state g :
  shouldRandomizeSeed (generation state) = false →
  nodes g !! RANGE_OF_SIZE = None →
  handle_seed state g = throw TypeError.
Proof. intros Hr Hn. unfold handle_seed. by rewrite Hr, Hn. Qed.

Lemma handle_seed_inv state g g' :
  result (handle_seed state g) = Returns g' →
  (shouldRandomizeSeed (generation state) = true ∧
   g' = push_edge seed_edge
          (set_node RANDOM_INT (obj [("id", VStr RANDOM_INT); ("type", VStr "rand_int")]) g))
  ∨ (shouldRandomizeSeed (generation state) = false ∧
     ∃ n, nodes g !! RANGE_OF_SIZE = Some n ∧
          g' = set_node RANGE_OF_SIZE (<["start" := VNum (seed (generation state))]> n) g).
Proof.
  unfold handle_seed.
  destruct (shouldRandomizeSeed (generation state)).
  - intros [= <-]. by left.
  - destruct (nodes g !! RANGE_OF_SIZE) as [n|]; [|done]. intros [= <-]. right. eauto.
Qed.

Lemma node_field_set_node_ne g k k' n f :
  k ≠ k' → node_field (set_node k' n g) k f = node_field g k f.
Proof. intros Hne. unfold node_field, set_node; cbn. by rewrite lookup_insert_ne. Qed.

Lemma node_field_set_node_eq g k n f : node_field (set_node k n g) k f = n !! f.
Proof. unfold node_field, set_node; cbn. by rewrite lookup_insert_eq. Qed.

Lemma node_field_push_edge g e k f : node_field (push_edge e g) k f = node_field g k f.
Proof. done. Qed.

(** Handling the seed changes no field of another node, and of the range
    node only [start]. *)
Lemma handle_seed_node_field state g g' k f :
  result (handle_seed state g) = Returns g' →
  k ≠ RANDOM_INT →
  k ≠ RANGE_OF_SIZE ∨ f ≠ "start" →
  node_field g' k f = node_field g k f.
Proof.
  intros [[_ ->]|[_ (n & Hn & ->)]]%handle_seed_inv Hk Hf.
  - by rewrite node_field_push_edge, node_field_set_node_ne.
  - destruct (decide (k = RANGE_OF_SIZE)) as [->|Hne].
    + destruct Hf as [|Hf]; [done|].
      rewrite node_field_set_node_eq. unfold node_field. rewrite Hn; cbn.
      by rewrite lookup_insert_ne.
    + by rewrite node_field_set_node_ne.
Qed.

(** A field the collaborators leave alone, of a node other than the random
    integer node and other than the range's [start], reads in the returned
    graph what it read in the initial one. *)
Lemma build_node_field state canvasInitImage canvasMaskImage g k f :
  leave_field state k f →
  k ≠ RANDOM_INT →
  k ≠ RANGE_OF_SIZE ∨ f ≠ "start" →
  result (buildCanvasSDXLOutpaintGraph state canvasInitImage canvasMaskImage) = Returns g →
  ∃ md, model (generation state) = Some md ∧
    node_field g k f = node_field (initial_graph state md canvasInitImage canvasMaskImage) k f.
Proof.
  intros Hl Hk Hf Hg. destruct (build_returns_model _ _ _ _ Hg) as [md Hm].
  exists md. split; [done|].
  eapply (build_invariant _ _ _ md (λ g, node_field g k f = _)); [done|reflexivity|apply Hl| |done].
  intros g1 g2 <- Hs. by eapply handle_seed_node_field.
Qed.

(** *** The nodes of the initial graph *)

Lemma initial_noise state md canvasInitImage canvasMaskImage :
  distinct_ids →
  nodes (initial_graph state md canvasInitImage canvasMaskImage) !! NOISE =
    Some (obj [("type", VStr "noise");
               ("id", VStr NOISE);
               ("width", VNum (width (boundingBoxDimensions (canvas state))));
               ("height", VNum (height (boundingBoxDimensions (canvas state))));
               ("use_cpu", VBool (use_cpu state));
               ("is_intermediate", VBool true)]).
Proof.
  intros Hd. unfold initial_graph, initial_nodes; cbn [nodes].
  rewrite infillNode_id. unfold obj at 1. cbn [foldl fst snd].
  by read_nodes Hd.
Qed.

Lemma initial_inpaint state md canvasInitImage canvasMaskImage :
  distinct_ids →
  nodes (initial_graph state md canvasInitImage canvasMaskImage) !! INPAINT =
    Some (obj [("type", VStr "denoise_latents");
               ("id", VStr INPAINT);
               ("is_intermediate", VBool true);
               ("steps", VNum (steps (generation state)));
               ("cfg_scale", VNum (cfgScale (generation state)));
               ("scheduler", VStr (scheduler (generation state)));
               ("denoising_start", VNum (1 - img2imgStrength (generation state)));
               ("denoising_end",
                 VNum (if shouldUseSDXLRefiner (sdxl state)
                       then refinerStart (sdxl state) else 1))]).
Proof.
  intros Hd. unfold initial_graph, initial_nodes; cbn [nodes].
  rewrite infillNode_id. unfold obj at 1. cbn [foldl fst snd].
  by read_nodes Hd.
Qed.

End phases.

(** ** The sample collaborators *)

Section stage_lists.
Context {K : Constants} {C : Collaborators}.

Lemma Forall_stages (P : stage → Prop) state :
  P (refiner_stage state) → P (vae_stage state) → P (lora_stage state) →
  P (controlnet_stage state) → P (nsfw_stage state) → P (watermark_stage state) →
  Forall P (stages state).
Proof.
  intros. unfold stages, stages_before_seed, stages_after_seed.
  repeat case_match; repeat (apply Forall_app; split); repeat constructor; done.
Qed.

Lemma use_cpu_flag state : use_cpu state = shouldUseCpuNoise (generation state).
Proof. unfold use_cpu. by case_match. Qed.

End stage_lists.

Lemma sample_distinct_ids : distinct_ids (K := Sample.ids).
Proof. unfold distinct_ids, node_ids. compute_done. Qed.

Lemma node_field_append_after g k k' t a f :
  k ≠ k' → node_field (Sample.append_after k' t a g) k f = node_field g k f.
Proof.
  intros Hne. unfold Sample.append_after.
  by rewrite node_field_push_edge, node_field_set_node_ne.
Qed.

(** The stand-ins touch two nodes only, the ones they add. *)
Lemma sample_leave_field state k f :
  k ≠ "nsfw_checker" → k ≠ "invisible_watermark" →
  leave_field (K := Sample.ids) (C := Sample.collaborators) state k f.
Proof.
  intros H1 H2 v. apply Forall_stages; intros g g' Hg [= <-]; try done;
    by rewrite node_field_append_after.
Qed.

Lemma sample_collaborators_return state :
  collaborators_return (K := Sample.ids) (C := Sample.collaborators) state.
Proof. apply Forall_stages; intros g; eexists; reflexivity. Qed.

(** ** The denoiser and the noise node *)

Section fields.
Context {K : Constants} {C : Collaborators}.

(** C4: in every graph the builder returns, the denoiser node's
    [denoising_start] is 1 minus the configured strength, and its
    [denoising_end] is 1 when the refiner flag is unset and the configured
    refiner hand-off fraction when it is set.  The subtraction is the one
    of binary64 numbers.  The node ids are taken to be distinct and the
    collaborators to leave these two fields alone. *)
Theorem denoiser_fractions state canvasInitImage canvasMaskImage g :
  distinct_ids →
  leave_field state INPAINT "denoising_start" →
  leave_field state INPAINT "denoising_end" →
  result (buildCanvasSDXLOutpaintGraph state canvasInitImage canvasMaskImage) = Returns g →
  node_field g INPAINT "denoising_start"
    = Some (VNum (1 - img2imgStrength (generation state))) ∧
  (shouldUseSDXLRefiner (sdxl state) = false →
   node_field g INPAINT "denoising_end" = Some (VNum 1)) ∧
  (shouldUseSDXLRefiner (sdxl state) = true →
   node_field g INPAINT "denoising_end" = Some (VNum (refinerStart (sdxl state)))).
Proof.
  intros Hd Hs He Hg.
  assert (INPAINT ≠ RANDOM_INT) as Hr by ids_ne Hd.
  assert (INPAINT ≠ RANGE_OF_SIZE) as Hz by ids_ne Hd.
  destruct (build_node_field _ _ _ _ _ _ Hs Hr (or_introl Hz) Hg) as (md & Hm & ->).
  destruct (build_node_field _ _ _ _ _ _ He Hr (or_introl Hz) Hg) as (md' & Hm' & ->).
  assert (md' = md) as -> by congruence.
  unfold node_field. rewrite (initial_inpaint _ _ _ _ Hd). cbn [mbind option_bind].
  split; [reflexivity|]. split; intros ->; reflexivity.
Qed.

(** C9: in every graph the builder returns, the noise node's [width] and
    [height] are those of the canvas bounding box, whatever the generic
    width and height parameters of the generation state are, and its
    [use_cpu] is the CPU noise flag.  The node ids are taken to be distinct
    and the collaborators to leave these three fields alone. *)
Theorem noise_dimensions state canvasInitImage canvasMaskImage g :
  distinct_ids →
  leave_field state NOISE "width" →
  leave_field state NOISE "height" →
  leave_field state NOISE "use_cpu" →
  result (buildCanvasSDXLOutpaintGraph state canvasInitImage canvasMaskImage) = Returns g →
  node_field g NOISE "width"
    = Some (VNum (width (boundingBoxDimensions (canvas state)))) ∧
  node_field g NOISE "height"
    = Some (VNum (height (boundingBoxDimensions (canvas state)))) ∧
  node_field g NOISE "use_cpu"
    = Some (VBool (shouldUseCpuNoise (generation state))).
Proof.
  intros Hd Hw Hh Hc Hg.
  assert (NOISE ≠ RANDOM_INT) as Hr by ids_ne Hd.
  assert (NOISE ≠ RANGE_OF_SIZE) as Hz by ids_ne Hd.
  destruct (build_node_field _ _ _ _ _ _ Hw Hr (or_introl Hz) Hg) as (md & Hm & ->).
  destruct (build_node_field _ _ _ _ _ _ Hh Hr (or_introl Hz) Hg) as (md1 & Hm1 & ->).
  destruct (build_node_field _ _ _ _ _ _ Hc Hr (or_introl Hz) Hg) as (md2 & Hm2 & ->).
  assert (md1 = md) as -> by congruence. assert (md2 = md) as -> by congruence.
  unfold node_field. rewrite (initial_noise _ _ _ _ Hd). cbn [mbind option_bind].
  rewrite <- use_cpu_flag. done.
Qed.

End fields.

(** With strength 0.7 and the refiner handing off at 0.8, on sample ids and
    collaborators: the denoiser starts at [1 - 0.7] and ends at 0.8. *)
Lemma denoiser_fractions_witness :
  let state := Sample.state (Some Sample.sdxl_base) false true true true "tile" false in
  let g := Sample.finished Sample.collaborators state Sample.init_image
             (Some Sample.mask_image) in
  result (Sample.run Sample.collaborators state Sample.init_image (Some Sample.mask_image))
    = Returns g ∧
  node_field g "inpaint" "denoising_start" = Some (VNum (1 - 0.7)) ∧
  node_field g "inpaint" "denoising_end" = Some (VNum 0.8).
Proof.
  intros state g.
  assert (result (Sample.run Sample.collaborators state Sample.init_image
                    (Some Sample.mask_image)) = Returns g) as Hg
    by (vm_compute; reflexivity).
  split; [exact Hg|].
  destruct (denoiser_fractions (K := Sample.ids) (C := Sample.collaborators)
              state _ _ g sample_distinct_ids
              (sample_leave_field _ "inpaint" _ ltac:(done) ltac:(done))
              (sample_leave_field _ "inpaint" _ ltac:(done) ltac:(done)) Hg)
    as (Hs & _ & He).
  split; [exact Hs | exact (He eq_refl)].
Defined.

(** In binary64 the difference [1 - 0.7] is the number printed
    0.30000000000000004, the neighbour of the number written 0.3: the two
    are [2^-54] apart.  A start fraction read as 0.3 for strength 0.7 is
    this number up to rounding. *)
Remark one_minus_strength_rounding :
  (1 - 0.7 = 0.30000000000000004)%float ∧
  (1 - 0.7 - 0.3 = 0x1p-54)%float ∧
  (1 - 0.7)%float ≠ 0.3%float.
Proof.
  split; [reflexivity|]. split; [reflexivity|]. intros Heq.
  assert (PrimFloat.eqb (1 - 0.7) 0.3 = true) as Hb by (rewrite Heq; reflexivity).
  vm_compute in Hb. discriminate Hb.
Qed.

(** With a 768 by 512 bounding box and generic 1024 by 1024 parameters:
    the noise node is 768 by 512. *)
Lemma noise_dimensions_witness :
  let state := Sample.state (Some Sample.sdxl_base) false false true true "tile" true in
  let g := Sample.finished Sample.collaborators state Sample.init_image
             (Some Sample.mask_image) in
  result (Sample.run Sample.collaborators state Sample.init_image (Some Sample.mask_image))
    = Returns g ∧
  node_field g "noise" "width" = Some (VNum 768) ∧
  node_field g "noise" "height" = Some (VNum 512) ∧
  node_field g "noise" "use_cpu" = Some (VBool true).
Proof.
  intros state g.
  assert (result (Sample.run Sample.collaborators state Sample.init_image
                    (Some Sample.mask_image)) = Returns g) as Hg
    by (vm_compute; reflexivity).
  split; [exact Hg|].
  exact (noise_dimensions (K := Sample.ids) (C := Sample.collaborators)
           state _ _ g sample_distinct_ids
           (sample_leave_field _ "noise" _ ltac:(done) ltac:(done))
           (sample_leave_field _ "noise" _ ltac:(done) ltac:(done))
           (sample_leave_field _ "noise" _ ltac:(done) ltac:(done)) Hg).
Defined.

(** ** The [shouldUseNoiseSettings] flag *)

Section noise_settings.
Context {K : Constants} {C : Collaborators}.

Lemma initial_graph_noise_settings b state md canvasInitImage canvasMaskImage :
  initial_graph (set_shouldUseNoiseSettings b state) md canvasInitImage canvasMaskImage
  = initial_graph state md canvasInitImage canvasMaskImage.
Proof.
  unfold initial_graph, initial_nodes. f_equal.
  change (infillNode (set_shouldUseNoiseSettings b state) canvasInitImage)
    with (infillNode state canvasInitImage).
  change (fp32 (set_shouldUseNoiseSettings b state)) with (fp32 state).
  rewrite !use_cpu_flag. reflexivity.
Qed.

Lemma handle_seed_noise_settings b state g :
  handle_seed (set_shouldUseNoiseSettings b state) g = handle_seed state g.
Proof. reflexivity. Qed.

(** C10: two states that differ only in [shouldUseNoiseSettings] give the
    same run, hence the same graph: [use_cpu] is the CPU noise flag
    whether the override is set or not.  The collaborators receive the
    state as well; they are taken to behave alike on the two states. *)
Theorem noise_settings_unobservable state1 state2 canvasInitImage canvasMaskImage :
  differ_only_in_noise_settings state1 state2 →
  collaborators_agree state1 state2 →
  use_cpu state1 = shouldUseCpuNoise (generation state1) ∧
  use_cpu state2 = shouldUseCpuNoise (generation state1) ∧
  buildCanvasSDXLOutpaintGraph state1 canvasInitImage canvasMaskImage
  = buildCanvasSDXLOutpaintGraph state2 canvasInitImage canvasMaskImage.
Proof.
  unfold differ_only_in_noise_settings.
  generalize (shouldUseNoiseSettings (generation state2)). intros b -> Hagree.
  split; [apply use_cpu_flag|]. split; [by rewrite use_cpu_flag|].
  destruct (model (generation state1)) as [md|] eqn:Hm.
  - rewrite (build_staged state1 _ _ md Hm).
    rewrite (build_staged (set_shouldUseNoiseSettings b state1) _ _ md Hm).
    rewrite initial_graph_noise_settings.
    unfold collaborators_agree, stages in Hagree.
    assert (Forall2 (λ s1 s2, callee s1 = callee s2 ∧ args s1 = args s2 ∧
                              ∀ g, run s1 g = run s2 g)
              (stages_before_seed state1)
              (stages_before_seed (set_shouldUseNoiseSettings b state1)) ∧
            Forall2 (λ s1 s2, callee s1 = callee s2 ∧ args s1 = args s2 ∧
                              ∀ g, run s1 g = run s2 g)
              (stages_after_seed state1)
              (stages_after_seed (set_shouldUseNoiseSettings b state1))) as [Hb Ha].
    { revert Hagree. unfold stages_before_seed, stages_after_seed.
      change (sdxl (set_shouldUseNoiseSettings b state1)) with (sdxl state1).
      change (system (set_shouldUseNoiseSettings b state1)) with (system state1).
      destruct (shouldUseSDXLRefiner (sdxl state1)), (shouldUseNSFWChecker (system state1)),
        (shouldUseWatermarker (system state1)); cbn [app]; intros Hagree;
        repeat match goal with
          | H : Forall2 _ (_ :: _) (_ :: _) |- _ => apply Forall2_cons_1 in H as [? H]
          end;
        split; repeat constructor; done. }
    rewrite (call_stages_ext _ _ _ Hb).
    unfold mbind at 1 3, M_bind. destruct (call_stages _ _) as [t [g1|e]]; cbn [fst snd]; [|done].
    rewrite handle_seed_noise_settings.
    unfold mbind, M_bind. destruct (handle_seed state1 g1) as [t' [g2|e]]; cbn [fst snd]; [|done].
    by rewrite (call_stages_ext _ _ _ Ha).
  - by rewrite !build_no_model.
Qed.

End noise_settings.

Lemma sample_collaborators_agree state1 state2 :
  sdxl state2 = sdxl state1 → system state2 = system state1 →
  collaborators_agree (K := Sample.ids) (C := Sample.collaborators) state1 state2.
Proof.
  intros Hx Hs. unfold collaborators_agree, stages, stages_before_seed, stages_after_seed.
  rewrite Hx, Hs. repeat case_match; cbn [app]; repeat constructor.
Qed.

(** The sample state with the override unset and with it set. *)
Lemma noise_settings_unobservable_witness :
  buildCanvasSDXLOutpaintGraph (K := Sample.ids) (C := Sample.collaborators)
    (Sample.state (Some Sample.sdxl_base) false false true true "tile" false)
    Sample.init_image (Some Sample.mask_image)
  = buildCanvasSDXLOutpaintGraph (K := Sample.ids) (C := Sample.collaborators)
      (Sample.state (Some Sample.sdxl_base) false false true true "tile" true)
      Sample.init_image (Some Sample.mask_image).
Proof.
  apply (noise_settings_unobservable (K := Sample.ids) (C := Sample.collaborators)).
  - reflexivity.
  - by apply sample_collaborators_agree.
Defined.

(** ** Failure without a model, and the order of the calls *)

Section order.
Context {K : Constants} {C : Collaborators}.

Lemma calls_stages state : calls (call_event <$> stages state) = augmentation_order state.
Proof.
  unfold stages, stages_before_seed, stages_after_seed, augmentation_order.
  by repeat case_match.
Qed.

Lemma calls_prefix t1 t2 : t1 `prefix_of` t2 → calls t1 `prefix_of` calls t2.
Proof. intros [t ->]. unfold calls. rewrite omap_app. by eexists. Qed.

Lemma run_stages_app l1 l2 g :
  run_stages (l1 ++ l2) g =
    match run_stages l1 g with
    | Returns g1 => run_stages l2 g1
    | Throws e => Throws e
    end.
Proof. revert g. induction l1 as [|s l1 IH]; intros g; cbn; [done|]. by destruct (run s g). Qed.

Lemma initial_range_present state md canvasInitImage canvasMaskImage :
  is_Some (nodes (initial_graph state md canvasInitImage canvasMaskImage) !! RANGE_OF_SIZE).
Proof.
  unfold initial_graph, initial_nodes; cbn [nodes]. unfold obj at 1. cbn [foldl fst snd].
  destruct (decide (ITERATE = RANGE_OF_SIZE)) as [->|Hne].
  - by rewrite lookup_insert_eq.
  - by rewrite lookup_insert_ne, lookup_insert_eq.
Qed.

(** C3: without a model the builder logs the error and throws
    [Error "No model found in state"]; it has called no collaborator and
    produced no graph.  With a model it returns a graph, provided the
    collaborators it calls return and the two called before the seed is
    handled leave the range node in place. *)
Theorem model_required state canvasInitImage canvasMaskImage :
  (model (generation state) = None →
   buildCanvasSDXLOutpaintGraph state canvasInitImage canvasMaskImage
   = ([LogError "No model found in state"], Throws (Error "No model found in state")))
  ∧
  (is_Some (model (generation state)) →
   collaborators_return state →
   Forall (preserves (λ g, is_Some (nodes g !! RANGE_OF_SIZE))) (stages_before_seed state) →
   ∃ g, result (buildCanvasSDXLOutpaintGraph state canvasInitImage canvasMaskImage)
        = Returns g).
Proof.
  split; [apply build_no_model|].
  intros [md Hm] [Hb Ha]%Forall_app Hrange. rewrite (build_result _ _ _ md Hm).
  destruct (run_stages_returns _ (initial_graph state md canvasInitImage canvasMaskImage) Hb)
    as [g1 H1].
  rewrite H1.
  assert (is_Some (nodes g1 !! RANGE_OF_SIZE)) as [n Hn].
  { eapply (run_stages_preserves _ _ _ _ Hrange); [|exact H1]. apply initial_range_present. }
  destruct (shouldRandomizeSeed (generation state)) eqn:Hr.
  - rewrite (handle_seed_random _ _ Hr), result_ret. by apply run_stages_returns.
  - rewrite (handle_seed_fixed _ _ _ Hr Hn), result_ret. by apply run_stages_returns.
Qed.

(** C7: a run with a model calls the collaborators in the order refiner
    (only when its flag is set), VAE, LoRA, ControlNet, NSFW checker (only
    when its flag is set), watermarker (only when its flag is set), and
    stops at the first that throws.  A run that returns has made all of
    these calls, each with its anchors, and when the watermarker flag is
    set the graph returned is the one the watermarker returned. *)
Theorem augmentation_stage_order state canvasInitImage canvasMaskImage :
  is_Some (model (generation state)) →
  let r := buildCanvasSDXLOutpaintGraph state canvasInitImage canvasMaskImage in
  calls (events r) `prefix_of` augmentation_order state ∧
  ∀ g, result r = Returns g →
    calls (events r) = augmentation_order state ∧
    events r = call_event <$> stages state ∧
    (shouldUseWatermarker (system state) = true →
     ∃ g0, addWatermarkerToGraph state g0 CANVAS_OUTPUT = Returns g).
Proof.
  intros [md Hm] r. split.
  { rewrite <- calls_stages. apply calls_prefix. by eapply build_events_prefix. }
  intros g Hg. pose proof (build_events_returns _ _ _ _ Hg) as He. fold r in He.
  split; [by rewrite He, calls_stages|]. split; [done|].
  intros Hw. unfold r in Hg. rewrite (build_result _ _ _ md Hm) in Hg.
  destruct (run_stages (stages_before_seed state) _) as [g1|]; [|done].
  destruct (result (handle_seed state g1)) as [g2|]; [|done].
  unfold stages_after_seed in Hg. rewrite Hw, !app_assoc, run_stages_app in Hg.
  destruct (run_stages _ g2) as [g3|]; [|done].
  cbn in Hg. exists g3. by destruct (addWatermarkerToGraph state g3 CANVAS_OUTPUT).
Qed.

End order.

(** No model: the error, and nothing else.  A model: a graph. *)
Lemma model_required_witness :
  buildCanvasSDXLOutpaintGraph (K := Sample.ids) (C := Sample.collaborators)
    (Sample.state None false true true true "tile" false) Sample.init_image None
  = ([LogError "No model found in state"], Throws (Error "No model found in state"))
  ∧ ∃ g, result (buildCanvasSDXLOutpaintGraph (K := Sample.ids) (C := Sample.collaborators)
                   (Sample.state (Some Sample.sdxl_base) false true true true "tile" false)
                   Sample.init_image None) = Returns g.
Proof.
  split.
  - apply (model_required (K := Sample.ids) (C := Sample.collaborators)). reflexivity.
  - apply (model_required (K := Sample.ids) (C := Sample.collaborators)).
    + by eexists.
    + apply sample_collaborators_return.
    + repeat constructor; by intros g g' Hg [= <-].
Defined.

(** All flags set: the six calls, in order. *)
Lemma augmentation_stage_order_witness :
  let state := Sample.state (Some Sample.sdxl_base) true true true true "patchmatch" false in
  calls (events (Sample.run Sample.collaborators state Sample.init_image None))
  = [AddSDXLRefinerToGraph; AddVAEToGraph; AddSDXLLoRAsToGraph;
     AddControlNetToLinearGraph; AddNSFWCheckerToGraph; AddWatermarkerToGraph].
Proof.
  intros state.
  assert (result (Sample.run Sample.collaborators state Sample.init_image None)
          = Returns (Sample.finished Sample.collaborators state Sample.init_image None))
    as Hg by (vm_compute; reflexivity).
  refine (proj1 (proj2 (augmentation_stage_order (K := Sample.ids)
                          (C := Sample.collaborators) state _ _ _) _ Hg)).
  by eexists.
Defined.

(** ** The seed *)

Section seed.
Context {K : Constants} {C : Collaborators}.

Lemma foldl_insert_lookup {V : Type} (l : list (string * V)) (o : gmap string V) k v :
  foldl (λ o kv, <[kv.1 := kv.2]> o) o l !! k = Some v → (k, v) ∈ l ∨ o !! k = Some v.
Proof.
  revert o. induction l as [|[k' v'] l IH]; intros o; cbn; [by right|].
  intros [Hin|Ho]%IH.
  - left. by right.
  - destruct (decide (k' = k)) as [->|Hne].
    + rewrite lookup_insert_eq in Ho. injection Ho as ->. left. by left.
    + rewrite lookup_insert_ne in Ho by done. by right.
Qed.

(** A property of an object literal holds of no other value than those
    written in it. *)
Lemma obj_lookup_elem {V : Type} (l : list (string * V)) k v :
  obj l !! k = Some v → (k, v) ∈ l.
Proof. intros [?|Hempty]%foldl_insert_lookup; [done|]. by rewrite lookup_empty in Hempty. Qed.

Lemma initial_range state md canvasInitImage canvasMaskImage :
  distinct_ids →
  nodes (initial_graph state md canvasInitImage canvasMaskImage) !! RANGE_OF_SIZE =
    Some (obj [("type", VStr "range_of_size");
               ("id", VStr RANGE_OF_SIZE);
               ("is_intermediate", VBool true);
               ("size", VNum (iterations (generation state)));
               ("step", VNum 1)]).
Proof.
  intros Hd. unfold initial_graph, initial_nodes; cbn [nodes].
  rewrite infillNode_id. unfold obj at 1. cbn [foldl fst snd].
  by read_nodes Hd.
Qed.

Lemma infillNode_type state canvasInitImage :
  type_of (infillNode state canvasInitImage) =
    Some (VStr (if decide (infillMethod (generation state) = "patchmatch")
                then "infill_patchmatch" else "infill_tile")).
Proof. unfold infillNode. by case_decide. Qed.

(** Every node of the graph literal carries one of these type tags. *)
Lemma initial_types state md canvasInitImage canvasMaskImage k n :
  nodes (initial_graph state md canvasInitImage canvasMaskImage) !! k = Some n →
  ∃ t, type_of n = Some (VStr t) ∧
    t ∈ ["sdxl_model_loader"; "sdxl_compel_prompt"; "infill_tile"; "infill_patchmatch";
         "i2l"; "tomask"; "mask_combine"; "img_blur"; "noise"; "denoise_latents"; "l2i";
         "color_correct"; "img_paste"; "range_of_size"; "iterate"].
Proof.
  intros Hin%obj_lookup_elem.
  repeat (apply elem_of_cons in Hin as [[= -> ->]|Hin]);
    [..|by apply elem_of_nil in Hin];
    try (eexists; split; [reflexivity|]; set_solver).
  rewrite infillNode_type. eexists; split; [reflexivity|]. case_decide; set_solver.
Qed.

Lemma initial_no_rand_int state md canvasInitImage canvasMaskImage :
  no_rand_int (initial_graph state md canvasInitImage canvasMaskImage).
Proof.
  intros k n (t & Ht & Hin)%initial_types. rewrite Ht. intros [= ->].
  revert Hin. compute_done.
Qed.

Lemma writers_nil g p : Forall (λ e, destination e ≠ p) (edges g) → writers g p = [].
Proof.
  unfold writers. induction 1 as [|e l He _ IH]; [done|].
  by rewrite filter_cons_False.
Qed.

Lemma writers_push_edge g e p :
  writers (push_edge e g) p = writers g p ++ (if decide (destination e = p) then [e] else []).
Proof.
  unfold writers, push_edge; cbn [edges]. by rewrite filter_app.
Qed.

Lemma writers_set_node g k n p : writers (set_node k n g) p = writers g p.
Proof. done. Qed.

(** No edge of the graph literal writes to a [start] port. *)
Lemma initial_writers_start state md canvasInitImage canvasMaskImage :
  writers (initial_graph state md canvasInitImage canvasMaskImage) start_port = [].
Proof.
  apply writers_nil. unfold initial_graph, initial_edges; cbn [edges].
  repeat constructor; intros Heq; apply (f_equal field) in Heq; discriminate Heq.
Qed.

Lemma no_rand_int_set_node g k n :
  type_of n ≠ Some (VStr "rand_int") → no_rand_int g → no_rand_int (set_node k n g).
Proof.
  intros Hn Hg k' n'. unfold set_node; cbn [nodes].
  destruct (decide (k = k')) as [->|Hne].
  - rewrite lookup_insert_eq. by intros [= <-].
  - rewrite lookup_insert_ne by done. apply Hg.
Qed.

(** C5: in every graph the builder returns, the range node has [size] the
    iteration count and [step] 1.  With the randomize flag set, a random
    integer node is stored under [RANDOM_INT], the one edge that writes to
    the range's [start] port comes from it, and the range node has no
    [start] field.  With the flag unset, no node is a random integer node,
    no edge writes to the [start] port, and [start] is the configured
    seed.  The node ids are taken to be distinct and the collaborators to
    leave the seed's part of the graph alone. *)
Theorem seed_strategy state canvasInitImage canvasMaskImage g :
  distinct_ids →
  leave_seed_subgraph state →
  result (buildCanvasSDXLOutpaintGraph state canvasInitImage canvasMaskImage) = Returns g →
  node_field g RANGE_OF_SIZE "size" = Some (VNum (iterations (generation state))) ∧
  node_field g RANGE_OF_SIZE "step" = Some (VNum 1) ∧
  (shouldRandomizeSeed (generation state) = true →
   has_type g RANDOM_INT "rand_int" ∧
   writers g start_port = [seed_edge] ∧
   node_field g RANGE_OF_SIZE "start" = None) ∧
  (shouldRandomizeSeed (generation state) = false →
   no_rand_int g ∧
   writers g start_port = [] ∧
   node_field g RANGE_OF_SIZE "start" = Some (VNum (seed (generation state)))).
Proof.
  intros Hd (Hsize & Hstep & Hstart & Hrand & Hnone & Hw) Hg.
  assert (RANGE_OF_SIZE ≠ RANDOM_INT) as Hr by ids_ne Hd.
  destruct (build_returns_model _ _ _ _ Hg) as [md Hm].
  pose proof (initial_range state md canvasInitImage canvasMaskImage Hd) as Hrange.
  assert (∀ f, f ≠ "start" → leave_field state RANGE_OF_SIZE f →
    node_field g RANGE_OF_SIZE f =
    node_field (initial_graph state md canvasInitImage canvasMaskImage) RANGE_OF_SIZE f)
    as Hkeep.
  { intros f Hf Hl.
    destruct (build_node_field _ _ _ _ _ _ Hl Hr (or_intror Hf) Hg) as (md' & Hm' & ->).
    congruence. }
  split. { rewrite Hkeep by done. unfold node_field. by rewrite Hrange. }
  split. { rewrite Hkeep by done. unfold node_field. by rewrite Hrange. }
  pose proof (Hstart None) as [Hsb Hsa]%Forall_app.
  pose proof (Hw []) as [Hwb _]%Forall_app.
  split; intros Hflag.
  - split; [|split].
    + pose proof Hrand as [_ Hra]%Forall_app.
      eapply (build_phases _ _ _ md (λ _, True) (λ g, has_type g RANDOM_INT "rand_int"));
        [done|done| | |exact Hra|exact Hg].
      * apply Forall_forall. by intros s _ g1 g2 _ _.
      * intros g1 g2 _. rewrite (handle_seed_random _ _ Hflag), result_ret. intros [= <-].
        unfold has_type. by rewrite node_field_push_edge, node_field_set_node_eq.
    + pose proof (Hw [seed_edge]) as [_ Hwa]%Forall_app.
      eapply (build_phases _ _ _ md (λ g, writers g start_port = [])
                (λ g, writers g start_port = [seed_edge]));
        [done|apply initial_writers_start|exact Hwb| |exact Hwa|exact Hg].
      intros g1 g2 H1. rewrite (handle_seed_random _ _ Hflag), result_ret. intros [= <-].
      rewrite writers_push_edge, writers_set_node, H1. cbn [app].
      by rewrite decide_True.
    + eapply (build_phases _ _ _ md (λ g, node_field g RANGE_OF_SIZE "start" = None)
                (λ g, node_field g RANGE_OF_SIZE "start" = None));
        [done| |exact Hsb| |exact Hsa|exact Hg].
      * unfold node_field. by rewrite Hrange.
      * intros g1 g2 H1. rewrite (handle_seed_random _ _ Hflag), result_ret. intros [= <-].
        by rewrite node_field_push_edge, node_field_set_node_ne.
  - split; [|split].
    + eapply (build_invariant _ _ _ md no_rand_int);
        [done|apply initial_no_rand_int|exact Hnone| |exact Hg].
      intros g1 g2 H1 [[Hflag' _]|[_ (n & Hn & ->)]]%handle_seed_inv; [congruence|].
      apply no_rand_int_set_node; [|done].
      unfold type_of. rewrite lookup_insert_ne by done. by apply (H1 RANGE_OF_SIZE).
    + pose proof (Hw []) as [_ Hwa]%Forall_app.
      eapply (build_phases _ _ _ md (λ g, writers g start_port = [])
                (λ g, writers g start_port = []));
        [done|apply initial_writers_start|exact Hwb| |exact Hwa|exact Hg].
      intros g1 g2 H1 [[Hflag' _]|[_ (n & Hn & ->)]]%handle_seed_inv; [congruence|].
      by rewrite writers_set_node.
    + pose proof (Hstart (Some (VNum (seed (generation state))))) as [_ Hsa']%Forall_app.
      eapply (build_phases _ _ _ md (λ g, node_field g RANGE_OF_SIZE "start" = None)
                (λ g, node_field g RANGE_OF_SIZE "start"
                      = Some (VNum (seed (generation state)))));
        [done| |exact Hsb| |exact Hsa'|exact Hg].
      * unfold node_field. by rewrite Hrange.
      * intros g1 g2 H1 [[Hflag' _]|[_ (n & Hn & ->)]]%handle_seed_inv; [congruence|].
        rewrite node_field_set_node_eq. by rewrite lookup_insert_eq.
Qed.

End seed.

Lemma no_rand_int_append_after g k t a :
  t ≠ "rand_int" → no_rand_int g → no_rand_int (Sample.append_after k t a g).
Proof.
  intros Ht Hg. unfold Sample.append_after.
  apply (no_rand_int_set_node g k _); [|done]. unfold type_of, obj; cbn.
  rewrite lookup_insert_ne by done. rewrite lookup_insert_eq. congruence.
Qed.

Lemma writers_append_after {K : Constants} g k t a :
  writers (Sample.append_after k t a g) start_port = writers g start_port.
Proof.
  unfold Sample.append_after. rewrite writers_push_edge, writers_set_node.
  rewrite decide_False; [by rewrite app_nil_r|].
  intros Heq. apply (f_equal field) in Heq. discriminate Heq.
Qed.

Lemma sample_leave_seed_subgraph state :
  leave_seed_subgraph (K := Sample.ids) (C := Sample.collaborators) state.
Proof.
  repeat split.
  - by apply sample_leave_field.
  - by apply sample_leave_field.
  - by apply sample_leave_field.
  - by apply (sample_leave_field state "rand_int" "type").
  - apply Forall_stages; intros g g' Hg [= <-]; try done;
      by apply no_rand_int_append_after.
  - intros ws. apply Forall_stages; intros g g' Hg [= <-]; try done;
      by rewrite writers_append_after.
Qed.

(** 4 iterations, seed 42: with the randomize flag unset the range has
    size 4, step 1 and start 42 and there is no random integer node; with
    the flag set the random integer node feeds the start port and the
    range has no start. *)
Lemma seed_strategy_witness :
  let fixed := Sample.state (Some Sample.sdxl_base) false false true true "tile" false in
  let random := Sample.state (Some Sample.sdxl_base) true false true true "tile" false in
  let g := Sample.finished Sample.collaborators fixed Sample.init_image None in
  let g' := Sample.finished Sample.collaborators random Sample.init_image None in
  (result (Sample.run Sample.collaborators fixed Sample.init_image None) = Returns g ∧
   node_field g "range_of_size" "size" = Some (VNum 4) ∧
   node_field g "range_of_size" "step" = Some (VNum 1) ∧
   node_field g "range_of_size" "start" = Some (VNum 42) ∧
   no_rand_int g ∧
   writers g (start_port (K := Sample.ids)) = []) ∧
  (result (Sample.run Sample.collaborators random Sample.init_image None) = Returns g' ∧
   has_type g' "rand_int" "rand_int" ∧
   writers g' (start_port (K := Sample.ids))
     = [edge "rand_int" "a" "range_of_size" "start"] ∧
   node_field g' "range_of_size" "start" = None).
Proof.
  intros fixed random g g'.
  assert (result (Sample.run Sample.collaborators fixed Sample.init_image None)
          = Returns g) as Hg by (vm_compute; reflexivity).
  assert (result (Sample.run Sample.collaborators random Sample.init_image None)
          = Returns g') as Hg' by (vm_compute; reflexivity).
  destruct (seed_strategy (K := Sample.ids) (C := Sample.collaborators) fixed _ _ g
              sample_distinct_ids (sample_leave_seed_subgraph _) Hg)
    as (Hsize & Hstep & _ & Hfixed).
  destruct (seed_strategy (K := Sample.ids) (C := Sample.collaborators) random _ _ g'
              sample_distinct_ids (sample_leave_seed_subgraph _) Hg')
    as (_ & _ & Hrandom & _).
  destruct (Hfixed eq_refl) as (Hnone & Hw & Hstart).
  split; [by repeat split|]. split; [exact Hg'|]. exact (Hrandom eq_refl).
Defined.

(** ** The infill node *)

Section infill.
Context {K : Constants} {C : Collaborators}.

Lemma initial_infill state md canvasInitImage canvasMaskImage :
  distinct_ids →
  nodes (initial_graph state md canvasInitImage canvasMaskImage) !! INPAINT_INFILL =
    Some (infillNode state canvasInitImage).
Proof.
  intros Hd. unfold initial_graph, initial_nodes; cbn [nodes].
  rewrite infillNode_id. unfold obj at 1. cbn [foldl fst snd].
  by read_nodes Hd.
Qed.

Lemma infillNode_is_infill state canvasInitImage :
  is_infill (infillNode state canvasInitImage).
Proof. unfold is_infill. rewrite infillNode_type. case_decide; auto. Qed.

Lemma sole_infill_set_node k n g k' n' :
  k ≠ k' → ¬ is_infill n' → sole_infill k n g → sole_infill k n (set_node k' n' g).
Proof.
  intros Hne Hn' (Hk & Hn & Hsole). unfold sole_infill, set_node; cbn [nodes].
  split; [by rewrite lookup_insert_ne|]. split; [done|].
  intros k2 n2. destruct (decide (k' = k2)) as [->|Hne2].
  - rewrite lookup_insert_eq. by intros [= <-].
  - rewrite lookup_insert_ne by done. apply Hsole.
Qed.

Lemma initial_sole_infill state md canvasInitImage canvasMaskImage :
  distinct_ids →
  sole_infill INPAINT_INFILL (infillNode state canvasInitImage)
    (initial_graph state md canvasInitImage canvasMaskImage).
Proof.
  intros Hd. split; [by apply initial_infill|]. split; [apply infillNode_is_infill|].
  intros k n Hin%obj_lookup_elem.
  repeat (apply elem_of_cons in Hin as [[= -> ->]|Hin]);
    [..|by apply elem_of_nil in Hin];
    try (intros [Ht|Ht]; discriminate Ht).
  intros _. apply infillNode_id.
Qed.

Lemma handle_seed_sole_infill state n g1 g2 :
  distinct_ids →
  sole_infill INPAINT_INFILL n g1 →
  result (handle_seed state g1) = Returns g2 →
  sole_infill INPAINT_INFILL n g2.
Proof.
  intros Hd H1 [[_ ->]|[_ (r & Hr & ->)]]%handle_seed_inv.
  - apply (sole_infill_set_node _ _ g1); [ids_ne Hd| |done].
    intros [Ht|Ht]; discriminate Ht.
  - apply (sole_infill_set_node _ _ g1); [ids_ne Hd| |done].
    unfold is_infill, type_of. rewrite lookup_insert_ne by done. intros Hi.
    assert (RANGE_OF_SIZE ≠ INPAINT_INFILL) as Hne by ids_ne Hd.
    apply Hne. destruct H1 as (_ & _ & Hsole). by apply (Hsole _ r).
Qed.

(** C6: for the infill methods ["tile"] and ["patchmatch"], every graph
    the builder returns stores exactly one infill node.  It is the tile
    variant with the configured tile size for ["tile"] and the patch-match
    variant, which has no parameter of its own, for ["patchmatch"].  Both
    variants are stored under [INPAINT_INFILL], the edges of the graph
    literal are the same for both, and those that leave the infill node
    read its [image] port.  The node ids are taken to be distinct and the
    collaborators to keep that node the only infill node. *)
Theorem infill_strategy state canvasInitImage canvasMaskImage g :
  distinct_ids →
  infillMethod (generation state) = "tile" ∨ infillMethod (generation state) = "patchmatch" →
  collaborators_preserve state (sole_infill INPAINT_INFILL (infillNode state canvasInitImage)) →
  result (buildCanvasSDXLOutpaintGraph state canvasInitImage canvasMaskImage) = Returns g →
  sole_infill INPAINT_INFILL (infillNode state canvasInitImage) g ∧
  (infillMethod (generation state) = "tile" ∧
   infillNode state canvasInitImage =
     obj [("type", VStr "infill_tile");
          ("id", VStr INPAINT_INFILL);
          ("is_intermediate", VBool true);
          ("image", VImage canvasInitImage);
          ("tile_size", VNum (tileSize (generation state)))]
   ∨
   infillMethod (generation state) = "patchmatch" ∧
   infillNode state canvasInitImage =
     obj [("type", VStr "infill_patchmatch");
          ("id", VStr INPAINT_INFILL);
          ("is_intermediate", VBool true);
          ("image", VImage canvasInitImage)]) ∧
  id_of (infillNode state canvasInitImage) = INPAINT_INFILL ∧
  (∀ state' md md' canvasMaskImage',
     edges (initial_graph state' md' canvasInitImage canvasMaskImage')
     = edges (initial_graph state md canvasInitImage canvasMaskImage)) ∧
  (∀ e, e ∈ initial_edges → node_id (source e) = INPAINT_INFILL → field (source e) = "image").
Proof.
  intros Hd Hmethod Hkeep Hg. destruct (build_returns_model _ _ _ _ Hg) as [md Hm].
  split.
  { eapply (build_invariant _ _ _ md); [done|by apply initial_sole_infill|done| |done].
    intros g1 g2. by apply handle_seed_sole_infill. }
  split. { unfold infillNode. destruct Hmethod as [Ht|Hp]; [left|right]; split; try done.
           - by rewrite Ht.
           - by rewrite Hp. }
  split; [apply infillNode_id|]. split; [done|].
  apply (Forall_forall (λ e, node_id (source e) = INPAINT_INFILL → field (source e) = "image")).
  unfold initial_edges.
  repeat (apply Forall_cons; split); try done;
    cbn; intros Heq; exfalso; revert Heq; ids_ne Hd.
Qed.

End infill.

Lemma sole_infill_append_after k n g k' t a :
  k ≠ k' → t ≠ "infill_tile" → t ≠ "infill_patchmatch" →
  sole_infill k n g → sole_infill k n (Sample.append_after k' t a g).
Proof.
  intros Hne Ht1 Ht2 Hg. unfold Sample.append_after.
  apply (sole_infill_set_node _ _ g); [done| |done].
  unfold is_infill, type_of, obj; cbn.
  rewrite lookup_insert_ne by done. rewrite lookup_insert_eq.
  intros [[=]|[=]]; congruence.
Qed.

Lemma sample_keep_sole_infill state n :
  collaborators_preserve (K := Sample.ids) (C := Sample.collaborators) state
    (sole_infill "inpaint_infill" n).
Proof.
  apply Forall_stages; intros g g' Hg [= <-]; try done;
    by apply sole_infill_append_after.
Qed.

(** The two methods on the sample state: one infill node each time, of the
    variant asked for. *)
Lemma infill_strategy_witness :
  let tile := Sample.state (Some Sample.sdxl_base) false false true true "tile" false in
  let patchmatch :=
    Sample.state (Some Sample.sdxl_base) false false true true "patchmatch" false in
  let g := Sample.finished Sample.collaborators tile Sample.init_image None in
  let g' := Sample.finished Sample.collaborators patchmatch Sample.init_image None in
  (result (Sample.run Sample.collaborators tile Sample.init_image None) = Returns g ∧
   sole_infill "inpaint_infill"
     (obj [("type", VStr "infill_tile"); ("id", VStr "inpaint_infill");
           ("is_intermediate", VBool true); ("image", VImage Sample.init_image);
           ("tile_size", VNum 32)]) g) ∧
  (result (Sample.run Sample.collaborators patchmatch Sample.init_image None) = Returns g' ∧
   sole_infill "inpaint_infill"
     (obj [("type", VStr "infill_patchmatch"); ("id", VStr "inpaint_infill");
           ("is_intermediate", VBool true); ("image", VImage Sample.init_image)]) g').
Proof.
  intros tile patchmatch g g'.
  assert (result (Sample.run Sample.collaborators tile Sample.init_image None)
          = Returns g) as Hg by (vm_compute; reflexivity).
  assert (result (Sample.run Sample.collaborators patchmatch Sample.init_image None)
          = Returns g') as Hg' by (vm_compute; reflexivity).
  split; (split; [done|]).
  - exact (proj1 (infill_strategy (K := Sample.ids) (C := Sample.collaborators)
                    tile Sample.init_image None g
                    sample_distinct_ids (or_introl eq_refl)
                    (sample_keep_sole_infill _ _) Hg)).
  - exact (proj1 (infill_strategy (K := Sample.ids) (C := Sample.collaborators)
                    patchmatch Sample.init_image None g'
                    sample_distinct_ids (or_intror eq_refl)
                    (sample_keep_sole_infill _ _) Hg')).
Defined.

(** ** The structure of the graph the builder wires itself *)

Ltac in_list := repeat first [apply list_elem_of_here | apply list_elem_of_further].

(** Finds the positions of the two ends of an edge in a list of ids. *)
Ltac edge_forward :=
  cbn [node_id source destination edge];
  lazymatch goal with
  | |- ∃ i j, ?l !! i = Some ?a ∧ ?l !! j = Some ?b ∧ i < j =>
      let l' := eval cbv [node_ids literal_ids ids_before_range ids_from_range app] in l in
      let i := index_in a l' in
      let j := index_in b l' in
      exists i, j; split_and!; [reflexivity | reflexivity | lia]
  end.

(** Two ports differ: by their fields, or else by their nodes. *)
Ltac port_ne Hd :=
  let Heq := fresh "Heq" in
  intros Heq;
  first [ apply (f_equal field) in Heq; cbn in Heq; discriminate Heq
        | apply (f_equal node_id) in Heq; cbn in Heq; revert Heq; ids_ne Hd ].

Section own_graph.
Context {K : Constants} {C : Collaborators}.

Lemma forward_tc order g :
  NoDup order →
  (∀ e, e ∈ edges g →
     ∃ i j, order !! i = Some (node_id (source e)) ∧
            order !! j = Some (node_id (destination e)) ∧ i < j) →
  ∀ a b, tc (feeds g) a b → ∃ i j, order !! i = Some a ∧ order !! j = Some b ∧ i < j.
Proof.
  intros Hnd Hfw a b Htc.
  induction Htc as [a b (e & He & <- & <-)
                   |a b c (e & He & <- & <-) _ (j' & k & Hj' & Hk & Hlt)].
  - by apply Hfw.
  - destruct (Hfw e He) as (i & j & Hi & Hj & Hij).
    assert (j = j') as -> by (by eapply NoDup_lookup).
    exists i, k. split_and!; [done|done|lia].
Qed.

(** A graph that has a topological sort has no cycle. *)
Lemma topological_sort_acyclic order g : topological_sort order g → acyclic g.
Proof.
  intros (Hnd & _ & Hfw) a Htc.
  destruct (forward_tc _ _ Hnd Hfw _ _ Htc) as (i & j & Hi & Hj & Hlt).
  assert (i = j) by (by eapply NoDup_lookup). lia.
Qed.

Lemma distinct_literal_ids : distinct_ids → NoDup literal_ids.
Proof.
  unfold distinct_ids, node_ids, literal_ids. rewrite !NoDup_app.
  intros (Hb & Hdisj & [_ Hf]%NoDup_cons). split; [done|]. split; [|done].
  intros x Hx Hin. apply (Hdisj x Hx). by right.
Qed.

Lemma initial_nodes_present state md canvasInitImage canvasMaskImage k :
  is_Some (nodes (initial_graph state md canvasInitImage canvasMaskImage) !! k)
  ↔ k ∈ literal_ids.
Proof.
  split.
  - intros [n Hin%obj_lookup_elem]. rewrite infillNode_id in Hin.
    repeat (apply elem_of_cons in Hin as [[= -> ->]|Hin]);
      [..|by apply elem_of_nil in Hin];
      unfold literal_ids, ids_before_range, ids_from_range; cbn [app]; in_list.
  - unfold literal_ids, ids_before_range, ids_from_range; cbn [app]. intros Hin.
    unfold initial_graph, initial_nodes; cbn [nodes].
    rewrite infillNode_id. unfold obj at 1. cbn [foldl fst snd].
    rewrite !lookup_insert_is_Some'.
    repeat (apply elem_of_cons in Hin as [->|Hin]);
      [..|by apply elem_of_nil in Hin];
      repeat first [by left | right].
Qed.

Lemma initial_ids_unique state md canvasInitImage canvasMaskImage :
  ids_unique (initial_graph state md canvasInitImage canvasMaskImage).
Proof.
  intros k n Hin%obj_lookup_elem.
  repeat (apply elem_of_cons in Hin as [[= -> ->]|Hin]);
    [..|by apply elem_of_nil in Hin]; try reflexivity.
  rewrite infillNode_id. unfold infillNode. by case_decide.
Qed.

Lemma ids_unique_set_node g k n :
  n !! "id" = Some (VStr k) → ids_unique g → ids_unique (set_node k n g).
Proof.
  intros Hn Hg k' n'. unfold set_node; cbn [nodes].
  destruct (decide (k = k')) as [->|Hne].
  - rewrite lookup_insert_eq. by intros [= <-].
  - rewrite lookup_insert_ne by done. apply Hg.
Qed.

Lemma initial_size state md canvasInitImage canvasMaskImage :
  distinct_ids →
  size (nodes (initial_graph state md canvasInitImage canvasMaskImage)) = 15.
Proof.
  intros Hd. unfold initial_graph, initial_nodes; cbn [nodes].
  rewrite infillNode_id. unfold obj at 1. cbn [foldl fst snd].
  rewrite !map_size_insert_None by (by read_nodes Hd).
  by rewrite map_size_empty.
Qed.

Lemma initial_endpoints state md canvasInitImage canvasMaskImage :
  endpoints_resolvable (initial_graph state md canvasInitImage canvasMaskImage).
Proof.
  intros e He. rewrite !initial_nodes_present. revert e He.
  apply (Forall_forall (λ e, node_id (source e) ∈ literal_ids ∧
                             node_id (destination e) ∈ literal_ids)).
  unfold initial_graph, initial_edges, literal_ids, ids_before_range, ids_from_range;
    cbn [edges app].
  repeat (apply Forall_cons; split); try done; split; cbn; in_list.
Qed.

Lemma initial_forward state md canvasInitImage canvasMaskImage (order : list string) :
  order = literal_ids ∨ order = node_ids →
  ∀ e, e ∈ edges (initial_graph state md canvasInitImage canvasMaskImage) →
    ∃ i j, order !! i = Some (node_id (source e)) ∧
           order !! j = Some (node_id (destination e)) ∧ i < j.
Proof.
  intros Horder.
  apply (Forall_forall (λ e, ∃ i j, order !! i = Some (node_id (source e)) ∧
                                    order !! j = Some (node_id (destination e)) ∧ i < j)).
  unfold initial_graph, initial_edges; cbn [edges].
  destruct Horder as [-> | ->];
    repeat (apply Forall_cons; split); try done; edge_forward.
Qed.

Lemma initial_single_writer state md canvasInitImage canvasMaskImage :
  distinct_ids →
  single_writer (initial_graph state md canvasInitImage canvasMaskImage).
Proof.
  intros Hd. unfold single_writer, initial_graph, initial_edges; cbn [edges fmap list_fmap].
  repeat (apply NoDup_cons; split); [..|apply NoDup_nil_2];
    intros Hin;
    repeat (apply elem_of_cons in Hin as [Hin'|Hin]; [revert Hin'; port_ne Hd|]);
    by apply elem_of_nil in Hin.
Qed.

Lemma endpoints_set_node g k n :
  endpoints_resolvable g → endpoints_resolvable (set_node k n g).
Proof.
  intros Hg e He. destruct (Hg e He) as [Hs Ht]. unfold set_node; cbn [nodes].
  rewrite !lookup_insert_is_Some'. auto.
Qed.

(** C8: take the graph literal and handle the seed on it, with no
    collaborator in between.  Every node is stored under its own id and no
    id is used twice (there are fifteen nodes, sixteen with the random
    integer node); both ends of every edge are nodes, and were nodes already
    when the edge was added: the literal's edges join the literal's nodes,
    and the seed's edge is pushed after the random integer node is stored;
    the graph has a topological sort, hence no cycle.  The node ids are
    taken to be distinct. *)
Theorem own_graph_well_formed state md canvasInitImage canvasMaskImage :
  distinct_ids →
  let g0 := initial_graph state md canvasInitImage canvasMaskImage in
  ids_unique g0 ∧ size (nodes g0) = 15 ∧ endpoints_resolvable g0 ∧
  ∃ g, handle_seed state g0 = mret g ∧
    ids_unique g ∧
    size (nodes g) = (if shouldRandomizeSeed (generation state) then 16 else 15) ∧
    endpoints_resolvable g ∧
    (shouldRandomizeSeed (generation state) = true →
     ∃ g1, g = push_edge seed_edge g1 ∧ edges g1 = edges g0 ∧
       is_Some (nodes g1 !! node_id (source seed_edge)) ∧
       is_Some (nodes g1 !! node_id (destination seed_edge))) ∧
    (shouldRandomizeSeed (generation state) = false → edges g = edges g0) ∧
    topological_sort
      (if shouldRandomizeSeed (generation state) then node_ids else literal_ids) g ∧
    acyclic g.
Proof.
  intros Hd g0.
  pose proof (initial_ids_unique state md canvasInitImage canvasMaskImage) as Hu.
  pose proof (initial_size state md canvasInitImage canvasMaskImage Hd) as Hs.
  pose proof (initial_endpoints state md canvasInitImage canvasMaskImage) as He.
  pose proof (initial_range state md canvasInitImage canvasMaskImage Hd) as Hrange.
  fold g0 in Hu, Hs, He, Hrange.
  split; [done|]. split; [done|]. split; [done|].
  assert (∀ g' order, topological_sort order g' → topological_sort order g' ∧ acyclic g')
    as Hacyc by (intros g' order Ht; split; [done|by eapply topological_sort_acyclic]).
  destruct (shouldRandomizeSeed (generation state)) eqn:Hflag.
  - rewrite (handle_seed_random _ _ Hflag). eexists. split; [reflexivity|].
    assert (nodes g0 !! RANDOM_INT = None) as Hfresh.
    { apply eq_None_not_Some. unfold g0. rewrite initial_nodes_present. intros Hin.
      apply NoDup_app in Hd as (_ & Hdisj & [Hr _]%NoDup_cons).
      apply elem_of_app in Hin as [Hin|Hin]; [|done].
      apply (Hdisj _ Hin). by left. }
    split. { apply ids_unique_set_node; [reflexivity|done]. }
    split. { cbn [push_edge set_node nodes]. by rewrite map_size_insert_None, Hs. }
    assert (endpoints_resolvable (set_node RANDOM_INT
              (obj [("id", VStr RANDOM_INT); ("type", VStr "rand_int")]) g0)) as He1
      by by apply endpoints_set_node.
    assert (is_Some (nodes (set_node RANDOM_INT
              (obj [("id", VStr RANDOM_INT); ("type", VStr "rand_int")]) g0)
              !! RANDOM_INT)) as Ha.
    { cbn [set_node nodes]. by rewrite lookup_insert_eq. }
    assert (is_Some (nodes (set_node RANDOM_INT
              (obj [("id", VStr RANDOM_INT); ("type", VStr "rand_int")]) g0)
              !! RANGE_OF_SIZE)) as Hb.
    { cbn [set_node nodes]. rewrite lookup_insert_is_Some'. right. by rewrite Hrange. }
    split.
    { intros e [Hin|Heq%list_elem_of_singleton]%elem_of_app; [by apply He1|by subst e]. }
    split. { intros _. eexists. split; [reflexivity|]. by split. }
    split; [done|].
    apply Hacyc. split; [exact Hd|]. split.
    + intros k. cbn [push_edge set_node nodes]. rewrite lookup_insert_is_Some'.
      unfold g0. rewrite initial_nodes_present.
      unfold node_ids, literal_ids. rewrite !elem_of_app, elem_of_cons. intuition.
    + intros e [Hin|Heq%list_elem_of_singleton]%elem_of_app.
      * apply (initial_forward state md canvasInitImage canvasMaskImage); [by right|done].
      * subst e. unfold seed_edge. edge_forward.
  - rewrite (handle_seed_fixed _ _ _ Hflag Hrange).
    eexists. split; [reflexivity|].
    split.
    { apply ids_unique_set_node; [|done]. rewrite lookup_insert_ne by done.
      by apply Hu. }
    split.
    { cbn [set_node nodes]. by rewrite map_size_insert_Some, Hs. }
    split; [by apply endpoints_set_node|]. split; [done|]. split; [done|].
    apply Hacyc. split; [by apply distinct_literal_ids|]. split.
    + intros k. cbn [set_node nodes]. rewrite lookup_insert_is_Some'.
      unfold g0. rewrite initial_nodes_present. split; [|by right].
      intros [<-|Hin]; [|done].
      unfold literal_ids, ids_before_range, ids_from_range; cbn [app]. in_list.
    + by apply (initial_forward state md canvasInitImage canvasMaskImage); left.
Qed.

End own_graph.

(** A randomized run on the sample ids, no collaborator in between. *)
Lemma own_graph_well_formed_witness :
  let state := Sample.state (Some Sample.sdxl_base) true false false false "tile" false in
  let g0 := initial_graph (K := Sample.ids) state Sample.sdxl_base Sample.init_image None in
  ∃ g, handle_seed (K := Sample.ids) state g0 = mret g ∧
    ids_unique g ∧ size (nodes g) = 16 ∧ endpoints_resolvable g ∧
    topological_sort (node_ids (K := Sample.ids)) g ∧ acyclic g.
Proof.
  intros state g0.
  destruct (own_graph_well_formed (K := Sample.ids) state Sample.sdxl_base
              Sample.init_image None sample_distinct_ids)
    as (_ & _ & _ & g & Hg & Hu & Hs & He & _ & _ & Ht & Ha).
  exists g. exact (conj Hg (conj Hu (conj Hs (conj He (conj Ht Ha))))).
Defined.

(** ** What is not checked *)

Section unchecked.
Context {K : Constants} {C : Collaborators}.

Lemma start_port_unwritten :
  start_port ∉ destination <$> initial_edges.
Proof.
  unfold initial_edges; cbn [fmap list_fmap]. intros Hin.
  repeat (apply elem_of_cons in Hin as [Heq|Hin];
          [apply (f_equal field) in Heq; cbn in Heq; discriminate Heq|]).
  by apply elem_of_nil in Hin.
Qed.

(** C2, as the code has it: the graph the builder wires itself, the
    literal with the seed handled and no collaborator in between, has at
    most one edge per destination port.  Nothing checks this when an edge
    is added: with the randomize flag set the seed's edge is appended to
    any graph, next to whatever already writes to the range's [start]. *)
Theorem own_graph_single_writer state md canvasInitImage canvasMaskImage :
  distinct_ids →
  (∃ g, handle_seed state (initial_graph state md canvasInitImage canvasMaskImage) = mret g ∧
        single_writer g) ∧
  (shouldRandomizeSeed (generation state) = true →
   ∀ g, ∃ g', handle_seed state g = mret g' ∧
     edges g' = edges g ++ [seed_edge] ∧
     writers g' start_port = writers g start_port ++ [seed_edge]).
Proof.
  intros Hd. split.
  - pose proof (initial_single_writer state md canvasInitImage canvasMaskImage Hd) as Hs.
    destruct (shouldRandomizeSeed (generation state)) eqn:Hflag.
    + rewrite (handle_seed_random _ _ Hflag). eexists. split; [reflexivity|].
      unfold single_writer in *. cbn [push_edge set_node edges initial_graph] in *.
      rewrite fmap_app. apply NoDup_app. split; [done|]. split; [|apply NoDup_singleton].
      intros p Hp ->%list_elem_of_singleton. by apply start_port_unwritten.
    + rewrite (handle_seed_fixed _ _ _ Hflag (initial_range _ _ _ _ Hd)).
      eexists. split; [reflexivity|]. done.
  - intros Hflag g. rewrite (handle_seed_random _ _ Hflag). eexists.
    split; [reflexivity|]. split; [done|].
    rewrite writers_push_edge, writers_set_node. by rewrite decide_True.
Qed.

Lemma run_stages_throws l g e :
  run_stages l g = Throws e → Exists (λ s, ∃ g', run s g' = Throws e) l.
Proof.
  revert g. induction l as [|s l IH]; intros g; cbn; [done|].
  destruct (run s g) as [g1|e'] eqn:Hrun.
  - intros Hl. apply Exists_cons_tl. by eapply IH.
  - intros [= ->]. apply Exists_cons_hd. eauto.
Qed.

(** C1, as the code has it: the builder returns a graph exactly when the
    stages and the handling of the seed return, and the graph it returns is
    the one the last stage returned; nothing is checked in between or at
    the end.  It throws only when the model is missing, when the seed
    cannot be written, or when a collaborator throws, and then with that
    exception. *)
Theorem returned_unchecked state canvasInitImage canvasMaskImage :
  let r := buildCanvasSDXLOutpaintGraph state canvasInitImage canvasMaskImage in
  (∀ g, result r = Returns g ↔
     ∃ md g1 g2,
       model (generation state) = Some md ∧
       run_stages (stages_before_seed state)
         (initial_graph state md canvasInitImage canvasMaskImage) = Returns g1 ∧
       result (handle_seed state g1) = Returns g2 ∧
       run_stages (stages_after_seed state) g2 = Returns g) ∧
  (∀ e, result r = Throws e →
     (model (generation state) = None ∧ e = Error "No model found in state") ∨
     (shouldRandomizeSeed (generation state) = false ∧ e = TypeError) ∨
     Exists (λ s, ∃ g', run s g' = Throws e) (stages state)).
Proof.
  intros r. unfold r. split.
  - intros g. split.
    + intros Hg. destruct (build_returns_model _ _ _ _ Hg) as [md Hm].
      rewrite (build_result _ _ _ md Hm) in Hg.
      destruct (run_stages (stages_before_seed state) _) as [g1|] eqn:H1; [|done].
      destruct (result (handle_seed state g1)) as [g2|] eqn:H2; [|done].
      by exists md, g1, g2.
    + intros (md & g1 & g2 & Hm & H1 & H2 & H3).
      by rewrite (build_result _ _ _ md Hm), H1, H2.
  - intros e. destruct (model (generation state)) as [md|] eqn:Hm.
    + rewrite (build_result _ _ _ md Hm).
      destruct (run_stages (stages_before_seed state) _) as [g1|e1] eqn:H1.
      * destruct (result (handle_seed state g1)) as [g2|e2] eqn:H2.
        -- intros H3%run_stages_throws. right. right. apply Exists_app. by right.
        -- intros [= ->]. right. left. revert H2. unfold handle_seed.
           destruct (shouldRandomizeSeed (generation state)); [done|].
           destruct (nodes g1 !! RANGE_OF_SIZE); [done|]. by intros [= <-].
      * intros [= ->]. apply run_stages_throws in H1. right. right.
        apply Exists_app. by left.
    + rewrite (build_no_model _ _ _ Hm). intros [= <-]. by left.
Qed.

End unchecked.

(** The sample ids, literal with the seed randomized: one writer per port,
    and the seed's edge goes onto any graph. *)
Lemma own_graph_single_writer_witness :
  let state := Sample.state (Some Sample.sdxl_base) true false false false "tile" false in
  ∃ g, handle_seed (K := Sample.ids) state
         (initial_graph (K := Sample.ids) state Sample.sdxl_base Sample.init_image None)
       = mret g ∧ single_writer g.
Proof.
  intros state.
  exact (proj1 (own_graph_single_writer (K := Sample.ids) state Sample.sdxl_base
                  Sample.init_image None sample_distinct_ids)).
Defined.

(** A run of the sample setting returns what its last stage returned. *)
Lemma returned_unchecked_witness :
  let state := Sample.state (Some Sample.sdxl_base) false false true true "tile" false in
  ∃ md g1 g2,
    model (generation state) = Some md ∧
    run_stages (stages_before_seed (K := Sample.ids) (C := Sample.collaborators) state)
      (initial_graph (K := Sample.ids) state md Sample.init_image None) = Returns g1 ∧
    result (handle_seed (K := Sample.ids) state g1) = Returns g2 ∧
    run_stages (stages_after_seed (K := Sample.ids) (C := Sample.collaborators) state) g2
    = Returns (Sample.finished Sample.collaborators state Sample.init_image None).
Proof.
  intros state.
  apply (proj1 (returned_unchecked (K := Sample.ids) (C := Sample.collaborators)
                  state Sample.init_image None)).
  vm_compute. reflexivity.
Defined.

(** C1 fails as stated: with a watermarker that wires its input from the
    NSFW checker node without looking whether there is one, and the NSFW
    checker switched off, the builder returns a graph with an edge whose
    source is not a node.  An endpoint check would fail on it; the call
    does not. *)
Lemma unvalidated_graph_returned :
  let state := Sample.state (Some Sample.sdxl_base) false false false true "tile" false in
  let g := Sample.finished Sample.careless_collaborators state Sample.init_image None in
  result (Sample.run Sample.careless_collaborators state Sample.init_image None)
    = Returns g ∧
  edge "nsfw_checker" "image" "invisible_watermark" "image" ∈ edges g ∧
  nodes g !! "nsfw_checker" = None ∧
  ¬ endpoints_resolvable g ∧
  ¬ valid (K := Sample.ids) g.
Proof.
  intros state g.
  assert (edge "nsfw_checker" "image" "invisible_watermark" "image" ∈ edges g) as Hin
    by (vm_compute; in_list).
  assert (nodes g !! "nsfw_checker" = None) as Hnone by (vm_compute; reflexivity).
  assert (¬ endpoints_resolvable g) as Hbad.
  { intros He. destruct (He _ Hin) as [[n Hn] _]. cbn in Hn. congruence. }
  split; [vm_compute; reflexivity|]. split; [done|]. split; [done|]. split; [done|].
  intros (_ & He & _). done.
Qed.

(** C2 fails as stated: with a collaborator that has already wired the
    start of the range, the seed's edge is added all the same; the builder
    returns a graph in which two edges write to that port. *)
Lemma second_writer_coexists :
  let state := Sample.state (Some Sample.sdxl_base) true false false false "tile" false in
  let g := Sample.finished Sample.eager_collaborators state Sample.init_image None in
  result (Sample.run Sample.eager_collaborators state Sample.init_image None)
    = Returns g ∧
  writers g (start_port (K := Sample.ids))
    = [edge "sdxl_model_loader" "seed" "range_of_size" "start";
       edge "rand_int" "a" "range_of_size" "start"] ∧
  ¬ single_writer g.
Proof.
  intros state g.
  split; [vm_compute; reflexivity|]. split; [vm_compute; reflexivity|].
  unfold single_writer. compute_done.
Qed.

(** ** Runs that fail half-way *)

Section failing_runs.
Context {K : Constants} {C : Collaborators}.

Lemma call_stages_returns l g g' :
  run_stages l g = Returns g' → call_stages l g = (call_event <$> l, Returns g').
Proof.
  revert g. induction l as [|s l IH]; intros g; cbn.
  - by intros [= <-].
  - destruct (run s g) as [g1|e] eqn:Hs; [|done]. intros Hl.
    unfold mbind, M_bind, call; cbn [fst snd]. by rewrite (IH _ Hl).
Qed.

Lemma call_stages_throws l1 s l2 g g1 e :
  run_stages l1 g = Returns g1 → run s g1 = Throws e →
  call_stages (l1 ++ s :: l2) g = (call_event <$> (l1 ++ [s]), Throws e).
Proof.
  revert g. induction l1 as [|s1 l1 IH]; intros g; cbn.
  - intros [= <-] Hs. unfold mbind, M_bind, call; cbn [fst snd]. by rewrite Hs.
  - destruct (run s1 g) as [g'|e'] eqn:Hs1; [|done]. intros Hl Hs.
    unfold mbind, M_bind, call; cbn [fst snd]. by rewrite (IH _ Hl Hs).
Qed.

(** X2: an exception thrown by a collaborator ends the run with that very
    exception, and the log stops at the call that threw: no later
    collaborator is called.  This holds for a collaborator called before
    the seed is handled and for one called after it. *)
Theorem collaborator_exception_propagates state canvasInitImage canvasMaskImage
    md l1 s l2 g1 e :
  model (generation state) = Some md →
  run s g1 = Throws e →
  (stages_before_seed state = l1 ++ s :: l2 →
   run_stages l1 (initial_graph state md canvasInitImage canvasMaskImage) = Returns g1 →
   buildCanvasSDXLOutpaintGraph state canvasInitImage canvasMaskImage
   = (call_event <$> (l1 ++ [s]), Throws e))
  ∧
  (stages_after_seed state = l1 ++ s :: l2 →
   ∀ g2 g3,
     run_stages (stages_before_seed state)
       (initial_graph state md canvasInitImage canvasMaskImage) = Returns g2 →
     result (handle_seed state g2) = Returns g3 →
     run_stages l1 g3 = Returns g1 →
     buildCanvasSDXLOutpaintGraph state canvasInitImage canvasMaskImage
     = (call_event <$> (stages_before_seed state ++ l1 ++ [s]), Throws e)).
Proof.
  intros Hm Hs. rewrite (build_staged _ _ _ md Hm). split.
  - intros -> Hl1. rewrite (call_stages_throws _ _ _ _ _ _ Hl1 Hs). done.
  - intros -> g2 g3 Hb Hseed Hl1. rewrite (call_stages_returns _ _ _ Hb).
    unfold mbind at 1, M_bind; cbn [fst snd].
    destruct (handle_seed state g2) as [t r] eqn:Hh.
    pose proof (handle_seed_events state g2) as Ht. rewrite Hh in Ht.
    unfold events in Ht; cbn in Ht; subst t.
    unfold result in Hseed; cbn in Hseed; subst r.
    unfold mbind, M_bind; cbn [fst snd].
    rewrite (call_stages_throws _ _ _ _ _ _ Hl1 Hs); cbn [fst snd].
    cbn [app]. by rewrite (fmap_app _ (stages_before_seed state)).
Qed.

(** X1: with the randomize flag unset the seed is written into the range
    node.  If the collaborators called before that have left a graph with
    nothing stored under [RANGE_OF_SIZE], the write raises a [TypeError]:
    the run ends with it, after the calls made so far and before any
    other. *)
Theorem seed_write_without_range state canvasInitImage canvasMaskImage md g1 :
  model (generation state) = Some md →
  shouldRandomizeSeed (generation state) = false →
  run_stages (stages_before_seed state)
    (initial_graph state md canvasInitImage canvasMaskImage) = Returns g1 →
  nodes g1 !! RANGE_OF_SIZE = None →
  buildCanvasSDXLOutpaintGraph state canvasInitImage canvasMaskImage
  = (call_event <$> stages_before_seed state, Throws TypeError).
Proof.
  intros Hm Hflag Hb Hnone. rewrite (build_staged _ _ _ md Hm).
  rewrite (call_stages_returns _ _ _ Hb).
  unfold mbind at 1, M_bind; cbn [fst snd].
  rewrite (handle_seed_fixed_missing _ _ Hflag Hnone).
  unfold mbind, M_bind, throw; cbn [fst snd]. by rewrite app_nil_r.
Qed.

End failing_runs.

(** The ControlNet stand-in throws: the run ends with its exception after
    three calls; the NSFW checker and the watermarker, both switched on,
    are not called. *)
Lemma collaborator_exception_propagates_witness :
  Sample.run Faulty.throwing_collaborators
    (Sample.state (Some Sample.sdxl_base) false false true true "tile" false)
    Sample.init_image None
  = ([Call AddVAEToGraph ["sdxl_model_loader"];
      Call AddSDXLLoRAsToGraph ["inpaint"; "sdxl_model_loader"];
      Call AddControlNetToLinearGraph ["inpaint"]],
     Throws Faulty.controlnet_failure).
Proof.
  set (state := Sample.state (Some Sample.sdxl_base) false false true true "tile" false).
  refine (proj2 (collaborator_exception_propagates (K := Sample.ids)
                   (C := Faulty.throwing_collaborators) state Sample.init_image None
                   Sample.sdxl_base
                   [lora_stage (K := Sample.ids) (C := Faulty.throwing_collaborators) state]
                   (controlnet_stage (K := Sample.ids) (C := Faulty.throwing_collaborators)
                      state)
                   _ _ Faulty.controlnet_failure eq_refl eq_refl) eq_refl _ _
                eq_refl eq_refl eq_refl).
Defined.

(** The VAE stand-in removes the range node and the seed is fixed: the run
    ends with a [TypeError] after that one call. *)
Lemma seed_write_without_range_witness :
  Sample.run Faulty.pruning_collaborators
    (Sample.state (Some Sample.sdxl_base) false false true true "tile" false)
    Sample.init_image None
  = ([Call AddVAEToGraph ["sdxl_model_loader"]], Throws TypeError).
Proof.
  refine (seed_write_without_range (K := Sample.ids) (C := Faulty.pruning_collaborators)
            (Sample.state (Some Sample.sdxl_base) false false true true "tile" false)
            Sample.init_image None Sample.sdxl_base _ eq_refl eq_refl eq_refl _).
  vm_compute. reflexivity.
Defined.

(** ** Settings that do not reach the graph *)

Section unread.
Context {K : Constants} {C : Collaborators}.

(** Two states give the same run when they hold the same model, switch the
    same stages on, give the same graph literal and handle the seed alike,
    and the collaborators behave alike on both. *)
Lemma build_ext state1 state2 canvasInitImage canvasMaskImage :
  model (generation state2) = model (generation state1) →
  same_stage_flags state1 state2 →
  (∀ md, initial_graph state2 md canvasInitImage canvasMaskImage
         = initial_graph state1 md canvasInitImage canvasMaskImage) →
  (∀ g, handle_seed state2 g = handle_seed state1 g) →
  collaborators_agree state1 state2 →
  buildCanvasSDXLOutpaintGraph state1 canvasInitImage canvasMaskImage
  = buildCanvasSDXLOutpaintGraph state2 canvasInitImage canvasMaskImage.
Proof.
  intros Hmodel (Hr & Hn & Hw) Hinit Hseed Hagree.
  destruct (model (generation state1)) as [md|] eqn:Hm.
  - rewrite (build_staged state1 _ _ md Hm).
    rewrite (build_staged state2 _ _ md Hmodel). rewrite Hinit.
    assert (Forall2 (λ s1 s2, callee s1 = callee s2 ∧ args s1 = args s2 ∧
                              ∀ g, run s1 g = run s2 g)
              (stages_before_seed state1) (stages_before_seed state2) ∧
            Forall2 (λ s1 s2, callee s1 = callee s2 ∧ args s1 = args s2 ∧
                              ∀ g, run s1 g = run s2 g)
              (stages_after_seed state1) (stages_after_seed state2)) as [Hb Ha].
    { revert Hagree.
      unfold collaborators_agree, stages, stages_before_seed, stages_after_seed.
      rewrite Hr, Hn, Hw.
      destruct (shouldUseSDXLRefiner (sdxl state1)), (shouldUseNSFWChecker (system state1)),
        (shouldUseWatermarker (system state1)); cbn [app]; intros Hagree;
        repeat match goal with
          | H : Forall2 _ (_ :: _) (_ :: _) |- _ => apply Forall2_cons_1 in H as [? H]
          end;
        split; repeat constructor; done. }
    rewrite (call_stages_ext _ _ _ Hb).
    unfold mbind at 1 3, M_bind. destruct (call_stages _ _) as [t [g1|e]]; cbn [fst snd]; [|done].
    rewrite Hseed.
    unfold mbind, M_bind. destruct (handle_seed state1 g1) as [t' [g2|e]]; cbn [fst snd]; [|done].
    by rewrite (call_stages_ext _ _ _ Ha).
  - by rewrite !build_no_model.
Qed.

(** X3: the builder takes [shouldFitToWidthHeight],
    [scaledBoundingBoxDimensions], [boundingBoxScaleMethod] and
    [shouldAutoSave] out of the state and uses none of them: whatever
    their values, the run is the same, log, outcome and graph.  The
    collaborators receive the state as well; they are taken to behave
    alike on the two states. *)
Theorem unused_settings_unobservable fit scaled method autosave state
    canvasInitImage canvasMaskImage :
  collaborators_agree state (set_unused_settings fit scaled method autosave state) →
  buildCanvasSDXLOutpaintGraph state canvasInitImage canvasMaskImage
  = buildCanvasSDXLOutpaintGraph (set_unused_settings fit scaled method autosave state)
      canvasInitImage canvasMaskImage.
Proof.
  intros Hagree. apply build_ext; try done.
Qed.

(** X4: with the randomize flag set the configured seed is not read: two
    states that differ only in [seed] give the same run.  The
    collaborators are taken to behave alike on the two states. *)
Theorem seed_unread_when_randomized x state canvasInitImage canvasMaskImage :
  shouldRandomizeSeed (generation state) = true →
  collaborators_agree state (set_seed x state) →
  buildCanvasSDXLOutpaintGraph state canvasInitImage canvasMaskImage
  = buildCanvasSDXLOutpaintGraph (set_seed x state) canvasInitImage canvasMaskImage.
Proof.
  intros Hflag Hagree. apply build_ext; try done.
  intros g. unfold handle_seed.
  change (shouldRandomizeSeed (generation (set_seed x state)))
    with (shouldRandomizeSeed (generation state)).
  by rewrite Hflag.
Qed.

Lemma infillNode_patchmatch state canvasInitImage :
  infillMethod (generation state) = "patchmatch" →
  infillNode state canvasInitImage =
    obj [("type", VStr "infill_patchmatch");
         ("id", VStr INPAINT_INFILL);
         ("is_intermediate", VBool true);
         ("image", VImage canvasInitImage)].
Proof. intros Hp. unfold infillNode. by rewrite Hp. Qed.

(** X5: with the patch-match infill the tile size is not read: two states
    that differ only in [tileSize] give the same run.  The collaborators
    are taken to behave alike on the two states. *)
Theorem tile_size_unread_for_patchmatch x state canvasInitImage canvasMaskImage :
  infillMethod (generation state) = "patchmatch" →
  collaborators_agree state (set_tileSize x state) →
  buildCanvasSDXLOutpaintGraph state canvasInitImage canvasMaskImage
  = buildCanvasSDXLOutpaintGraph (set_tileSize x state) canvasInitImage canvasMaskImage.
Proof.
  intros Hp Hagree. apply build_ext; try done.
  intros md. unfold initial_graph, initial_nodes. cbv zeta.
  rewrite (infillNode_patchmatch state _ Hp).
  rewrite (infillNode_patchmatch (set_tileSize x state) _ Hp).
  reflexivity.
Qed.

(** X6: with the refiner switched off the hand-off fraction is not read:
    two states that differ only in [refinerStart] give the same run.  The
    collaborators are taken to behave alike on the two states. *)
Theorem refiner_start_unread_without_refiner x state canvasInitImage canvasMaskImage :
  shouldUseSDXLRefiner (sdxl state) = false →
  collaborators_agree state (set_refinerStart x state) →
  buildCanvasSDXLOutpaintGraph state canvasInitImage canvasMaskImage
  = buildCanvasSDXLOutpaintGraph (set_refinerStart x state) canvasInitImage canvasMaskImage.
Proof.
  intros Hflag Hagree. apply build_ext; try done.
  intros md. destruct state as [g [ps ns cc r rs] cv sy]. cbn in Hflag. subst r.
  reflexivity.
Qed.

End unread.

(** ** Nodes the builder creates and never touches again *)

(** Finds an id in the list of the literal's ids. *)
Ltac literal_id :=
  unfold literal_ids, ids_before_range, ids_from_range; cbn [app]; in_list.

(** Reads a node of the graph literal. *)
Ltac read_literal Hd :=
  unfold initial_graph, initial_nodes; cbn [nodes];
  rewrite infillNode_id; unfold obj at 1; cbn [foldl fst snd];
  by read_nodes Hd.

Section kept_nodes.
Context {K : Constants} {C : Collaborators}.

Lemma handle_seed_other_node state g g' k :
  result (handle_seed state g) = Returns g' →
  k ≠ RANDOM_INT → k ≠ RANGE_OF_SIZE →
  nodes g' !! k = nodes g !! k.
Proof.
  intros [[_ ->]|[_ (n & Hn & ->)]]%handle_seed_inv Hr Hz;
    cbn [push_edge set_node nodes]; by rewrite lookup_insert_ne.
Qed.

(** Under a key other than [RANDOM_INT] and [RANGE_OF_SIZE] that the
    collaborators leave alone, the returned graph stores what the literal
    stored. *)
Lemma build_other_node state canvasInitImage canvasMaskImage g k :
  k ≠ RANDOM_INT → k ≠ RANGE_OF_SIZE →
  leave_node state k →
  result (buildCanvasSDXLOutpaintGraph state canvasInitImage canvasMaskImage) = Returns g →
  ∃ md, model (generation state) = Some md ∧
    nodes g !! k = nodes (initial_graph state md canvasInitImage canvasMaskImage) !! k.
Proof.
  intros Hr Hz Hl Hg. destruct (build_returns_model _ _ _ _ Hg) as [md Hm].
  exists md. split; [done|].
  eapply (build_invariant _ _ _ md (λ g, nodes g !! k = _));
    [done|reflexivity|apply Hl| |done].
  intros g1 g2 <- Hs. by eapply handle_seed_other_node.
Qed.

(** X7: after writing the graph literal the builder itself stores nodes
    under [RANDOM_INT] and [RANGE_OF_SIZE] only.  Under any other key,
    whether the literal uses it or not, a graph it returns stores what the
    literal stored, provided the collaborators called change nothing
    there; in particular it stores nothing under a key the literal does
    not use. *)
Theorem untouched_node_kept state canvasInitImage canvasMaskImage g k :
  k ≠ RANDOM_INT → k ≠ RANGE_OF_SIZE →
  leave_node state k →
  result (buildCanvasSDXLOutpaintGraph state canvasInitImage canvasMaskImage) = Returns g →
  (∃ md, model (generation state) = Some md ∧
     nodes g !! k = nodes (initial_graph state md canvasInitImage canvasMaskImage) !! k) ∧
  (k ∉ literal_ids → nodes g !! k = None).
Proof.
  intros Hr Hz Hl Hg.
  destruct (build_other_node _ _ _ _ _ Hr Hz Hl Hg) as (md & Hm & Hk).
  split; [by exists md|]. intros Hnot. rewrite Hk. apply eq_None_not_Some.
  by rewrite initial_nodes_present.
Qed.

Lemma initial_positive state md canvasInitImage canvasMaskImage :
  distinct_ids →
  nodes (initial_graph state md canvasInitImage canvasMaskImage) !! POSITIVE_CONDITIONING =
    Some (obj [("type", VStr "sdxl_compel_prompt");
               ("id", VStr POSITIVE_CONDITIONING);
               ("prompt", VStr (positivePrompt (generation state)));
               ("style", VStr (if shouldConcatSDXLStylePrompt (sdxl state)
                               then template (positivePrompt (generation state))
                                      (positiveStylePrompt (sdxl state))
                               else positiveStylePrompt (sdxl state)))]).
Proof. intros Hd. read_literal Hd. Qed.

Lemma initial_negative state md canvasInitImage canvasMaskImage :
  distinct_ids →
  nodes (initial_graph state md canvasInitImage canvasMaskImage) !! NEGATIVE_CONDITIONING =
    Some (obj [("type", VStr "sdxl_compel_prompt");
               ("id", VStr NEGATIVE_CONDITIONING);
               ("prompt", VStr (negativePrompt (generation state)));
               ("style", VStr (if shouldConcatSDXLStylePrompt (sdxl state)
                               then template (negativePrompt (generation state))
                                      (negativeStylePrompt (sdxl state))
                               else negativeStylePrompt (sdxl state)))]).
Proof. intros Hd. read_literal Hd. Qed.

Lemma initial_model_loader state md canvasInitImage canvasMaskImage :
  distinct_ids →
  nodes (initial_graph state md canvasInitImage canvasMaskImage) !! SDXL_MODEL_LOADER =
    Some (obj [("type", VStr "sdxl_model_loader");
               ("id", VStr SDXL_MODEL_LOADER);
               ("model", VModel md)]).
Proof. intros Hd. read_literal Hd. Qed.

Lemma initial_encoder state md canvasInitImage canvasMaskImage :
  distinct_ids →
  nodes (initial_graph state md canvasInitImage canvasMaskImage) !! INPAINT_IMAGE =
    Some (obj [("type", VStr "i2l");
               ("id", VStr INPAINT_IMAGE);
               ("is_intermediate", VBool true);
               ("fp32", VBool (fp32 state))]).
Proof. intros Hd. read_literal Hd. Qed.

Lemma initial_decoder state md canvasInitImage canvasMaskImage :
  distinct_ids →
  nodes (initial_graph state md canvasInitImage canvasMaskImage) !! LATENTS_TO_IMAGE =
    Some (obj [("type", VStr "l2i");
               ("id", VStr LATENTS_TO_IMAGE);
               ("is_intermediate", VBool true);
               ("fp32", VBool (fp32 state))]).
Proof. intros Hd. read_literal Hd. Qed.

Lemma initial_mask_from_alpha state md canvasInitImage canvasMaskImage :
  distinct_ids →
  nodes (initial_graph state md canvasInitImage canvasMaskImage) !! MASK_FROM_ALPHA =
    Some (obj [("type", VStr "tomask");
               ("id", VStr MASK_FROM_ALPHA);
               ("is_intermediate", VBool true);
               ("image", VImage canvasInitImage)]).
Proof. intros Hd. read_literal Hd. Qed.

Lemma initial_mask_combine state md canvasInitImage canvasMaskImage :
  distinct_ids →
  nodes (initial_graph state md canvasInitImage canvasMaskImage) !! MASK_COMBINE =
    Some (obj [("type", VStr "mask_combine");
               ("id", VStr MASK_COMBINE);
               ("is_intermediate", VBool true);
               ("mask2", from_option VImage VUndefined canvasMaskImage)]).
Proof. intros Hd. read_literal Hd. Qed.

Lemma initial_mask_blur state md canvasInitImage canvasMaskImage :
  distinct_ids →
  nodes (initial_graph state md canvasInitImage canvasMaskImage) !! MASK_BLUR =
    Some (obj [("type", VStr "img_blur");
               ("id", VStr MASK_BLUR);
               ("is_intermediate", VBool true);
               ("radius", VNum (maskBlur (generation state)));
               ("blur_type", VStr (maskBlurMethod (generation state)))]).
Proof. intros Hd. read_literal Hd. Qed.

(** A node of the literal that the collaborators leave alone. *)
Lemma kept_literal_node state canvasInitImage canvasMaskImage g k :
  distinct_ids →
  k ∈ literal_ids → k ≠ RANGE_OF_SIZE →
  leave_node state k →
  result (buildCanvasSDXLOutpaintGraph state canvasInitImage canvasMaskImage) = Returns g →
  ∃ md, model (generation state) = Some md ∧
    nodes g !! k = nodes (initial_graph state md canvasInitImage canvasMaskImage) !! k.
Proof.
  intros Hd Hk Hz Hl Hg.
  assert (k ≠ RANDOM_INT) as Hr.
  { intros ->. apply NoDup_app in Hd as (_ & Hdisj & [Hnot _]%NoDup_cons).
    apply elem_of_app in Hk as [Hk|Hk]; [|done]. apply (Hdisj _ Hk). by left. }
  by apply build_other_node.
Qed.

(** X8: in every graph the builder returns, each conditioning node carries
    its prompt, and as style either the style prompt alone or, when
    [shouldConcatSDXLStylePrompt] is set, the prompt, one space and the
    style prompt.  The node ids are taken to be distinct and the
    collaborators to leave the two nodes alone. *)
Theorem conditioning_prompts state canvasInitImage canvasMaskImage g :
  distinct_ids →
  leave_node state POSITIVE_CONDITIONING →
  leave_node state NEGATIVE_CONDITIONING →
  result (buildCanvasSDXLOutpaintGraph state canvasInitImage canvasMaskImage) = Returns g →
  let gen := generation state in
  let x := sdxl state in
  node_field g POSITIVE_CONDITIONING "prompt" = Some (VStr (positivePrompt gen)) ∧
  node_field g NEGATIVE_CONDITIONING "prompt" = Some (VStr (negativePrompt gen)) ∧
  (shouldConcatSDXLStylePrompt x = true →
   node_field g POSITIVE_CONDITIONING "style"
     = Some (VStr (positivePrompt gen +:+ " " +:+ positiveStylePrompt x)) ∧
   node_field g NEGATIVE_CONDITIONING "style"
     = Some (VStr (negativePrompt gen +:+ " " +:+ negativeStylePrompt x))) ∧
  (shouldConcatSDXLStylePrompt x = false →
   node_field g POSITIVE_CONDITIONING "style" = Some (VStr (positiveStylePrompt x)) ∧
   node_field g NEGATIVE_CONDITIONING "style" = Some (VStr (negativeStylePrompt x))).
Proof.
  intros Hd Hp Hn Hg gen x.
  destruct (kept_literal_node state canvasInitImage canvasMaskImage g POSITIVE_CONDITIONING Hd)
    as (md_Hpos & _ & Hpos);
    [literal_id|ids_ne Hd|done|done|].
  rewrite (initial_positive _ _ _ _ Hd) in Hpos.
  destruct (kept_literal_node state canvasInitImage canvasMaskImage g NEGATIVE_CONDITIONING Hd)
    as (md_Hneg & _ & Hneg);
    [literal_id|ids_ne Hd|done|done|].
  rewrite (initial_negative _ _ _ _ Hd) in Hneg.
  unfold node_field. rewrite Hpos, Hneg. cbn [mbind option_bind].
  split; [done|]. split; [done|]. fold x. split; intros ->; done.
Qed.

(** X9: in every graph the builder returns, the image encoder and the
    latents decoder carry the same [fp32] flag: true when [vaePrecision]
    is exactly ["fp32"], false for any other value.  The node ids are
    taken to be distinct and the collaborators to leave the two nodes
    alone. *)
Theorem vae_precision_flags state canvasInitImage canvasMaskImage g :
  distinct_ids →
  leave_node state INPAINT_IMAGE →
  leave_node state LATENTS_TO_IMAGE →
  result (buildCanvasSDXLOutpaintGraph state canvasInitImage canvasMaskImage) = Returns g →
  node_field g INPAINT_IMAGE "fp32" = node_field g LATENTS_TO_IMAGE "fp32" ∧
  (vaePrecision (generation state) = "fp32" →
   node_field g LATENTS_TO_IMAGE "fp32" = Some (VBool true)) ∧
  (vaePrecision (generation state) ≠ "fp32" →
   node_field g LATENTS_TO_IMAGE "fp32" = Some (VBool false)).
Proof.
  intros Hd He Hl Hg.
  destruct (kept_literal_node state canvasInitImage canvasMaskImage g INPAINT_IMAGE Hd)
    as (md_Henc & _ & Henc);
    [literal_id|ids_ne Hd|done|done|].
  rewrite (initial_encoder _ _ _ _ Hd) in Henc.
  destruct (kept_literal_node state canvasInitImage canvasMaskImage g LATENTS_TO_IMAGE Hd)
    as (md_Hdec & _ & Hdec);
    [literal_id|ids_ne Hd|done|done|].
  rewrite (initial_decoder _ _ _ _ Hd) in Hdec.
  unfold node_field. rewrite Henc, Hdec. cbn [mbind option_bind].
  split; [done|]. unfold fp32. split; intros Hv.
  - by rewrite decide_True.
  - by rewrite decide_False.
Qed.

(** X10: in every graph the builder returns, the alpha mask is taken from
    the canvas image; the mask combiner's [mask2] is the canvas mask image
    when one is passed and is present with the value [undefined] when none
    is; the blur carries the configured radius and method.  The node ids
    are taken to be distinct and the collaborators to leave the three
    nodes alone. *)
Theorem mask_inputs state canvasInitImage canvasMaskImage g :
  distinct_ids →
  leave_node state MASK_FROM_ALPHA →
  leave_node state MASK_COMBINE →
  leave_node state MASK_BLUR →
  result (buildCanvasSDXLOutpaintGraph state canvasInitImage canvasMaskImage) = Returns g →
  node_field g MASK_FROM_ALPHA "image" = Some (VImage canvasInitImage) ∧
  (∀ mask, canvasMaskImage = Some mask →
     node_field g MASK_COMBINE "mask2" = Some (VImage mask)) ∧
  (canvasMaskImage = None → node_field g MASK_COMBINE "mask2" = Some VUndefined) ∧
  node_field g MASK_COMBINE "mask1" = None ∧
  node_field g MASK_BLUR "radius" = Some (VNum (maskBlur (generation state))) ∧
  node_field g MASK_BLUR "blur_type" = Some (VStr (maskBlurMethod (generation state))).
Proof.
  intros Hd Ha Hc Hb Hg.
  destruct (kept_literal_node state canvasInitImage canvasMaskImage g MASK_FROM_ALPHA Hd)
    as (md_Halpha & _ & Halpha);
    [literal_id|ids_ne Hd|done|done|].
  rewrite (initial_mask_from_alpha _ _ _ _ Hd) in Halpha.
  destruct (kept_literal_node state canvasInitImage canvasMaskImage g MASK_COMBINE Hd)
    as (md_Hcomb & _ & Hcomb);
    [literal_id|ids_ne Hd|done|done|].
  rewrite (initial_mask_combine _ _ _ _ Hd) in Hcomb.
  destruct (kept_literal_node state canvasInitImage canvasMaskImage g MASK_BLUR Hd)
    as (md_Hblur & _ & Hblur);
    [literal_id|ids_ne Hd|done|done|].
  rewrite (initial_mask_blur _ _ _ _ Hd) in Hblur.
  unfold node_field. rewrite Halpha, Hcomb, Hblur. cbn [mbind option_bind].
  split; [done|]. split; [by intros mask ->|]. split; [by intros ->|]. done.
Qed.

(** X11: in every graph the builder returns, the model loader carries the
    selected model, and the denoiser the configured step count, guidance
    scale and scheduler.  The node ids are taken to be distinct and the
    collaborators to leave the two nodes alone. *)
Theorem model_and_sampler_settings state canvasInitImage canvasMaskImage g :
  distinct_ids →
  leave_node state SDXL_MODEL_LOADER →
  leave_node state INPAINT →
  result (buildCanvasSDXLOutpaintGraph state canvasInitImage canvasMaskImage) = Returns g →
  (∃ md, model (generation state) = Some md ∧
         node_field g SDXL_MODEL_LOADER "model" = Some (VModel md)) ∧
  node_field g INPAINT "steps" = Some (VNum (steps (generation state))) ∧
  node_field g INPAINT "cfg_scale" = Some (VNum (cfgScale (generation state))) ∧
  node_field g INPAINT "scheduler" = Some (VStr (scheduler (generation state))).
Proof.
  intros Hd Hl Hi Hg.
  destruct (kept_literal_node state canvasInitImage canvasMaskImage g SDXL_MODEL_LOADER Hd)
    as (md & Hm & Hloader); [literal_id|ids_ne Hd|done|done|].
  rewrite (initial_model_loader _ _ _ _ Hd) in Hloader.
  destruct (kept_literal_node state canvasInitImage canvasMaskImage g INPAINT Hd)
    as (md' & _ & Hden); [literal_id|ids_ne Hd|done|done|].
  rewrite (initial_inpaint _ _ _ _ Hd) in Hden.
  unfold node_field. rewrite Hloader, Hden. cbn [mbind option_bind].
  split; [by exists md|]. done.
Qed.

End kept_nodes.

(** ** The infill default, the seed on any graph, and what feeds the output *)

Section seed_and_wiring.
Context {K : Constants} {C : Collaborators}.

(** X12: the infill method is compared with ["patchmatch"] only.  For any
    other selector, known or not, every graph the builder returns stores
    the tile infill node with the configured tile size, and no other
    infill node.  The node ids are taken to be distinct and the
    collaborators to keep that node the only infill node. *)
Theorem infill_defaults_to_tile state canvasInitImage canvasMaskImage g :
  distinct_ids →
  infillMethod (generation state) ≠ "patchmatch" →
  let tile := obj [("type", VStr "infill_tile");
                   ("id", VStr INPAINT_INFILL);
                   ("is_intermediate", VBool true);
                   ("image", VImage canvasInitImage);
                   ("tile_size", VNum (tileSize (generation state)))] in
  collaborators_preserve state (sole_infill INPAINT_INFILL tile) →
  result (buildCanvasSDXLOutpaintGraph state canvasInitImage canvasMaskImage) = Returns g →
  sole_infill INPAINT_INFILL tile g.
Proof.
  intros Hd Hmethod tile Hkeep Hg. destruct (build_returns_model _ _ _ _ Hg) as [md Hm].
  assert (infillNode state canvasInitImage = tile) as Htile.
  { unfold infillNode. by rewrite decide_False. }
  eapply (build_invariant _ _ _ md); [done| |done| |done].
  - rewrite <- Htile. by apply initial_sole_infill.
  - intros g1 g2. by apply handle_seed_sole_infill.
Qed.

(** X13: what handling the seed does to any graph it is given.  It keeps
    the graph's id and every node stored under a key other than
    [RANDOM_INT] and [RANGE_OF_SIZE].  With the randomize flag set it
    stores the random integer node under [RANDOM_INT], replacing whatever
    was there, and appends the seed's edge to the edges.  With the flag
    unset it keeps the edges and sets the range node's [start] to the
    seed, replacing any earlier value and keeping every other field. *)
Theorem handle_seed_frame state g g' :
  result (handle_seed state g) = Returns g' →
  id g' = id g ∧
  (∀ k, k ≠ RANDOM_INT → k ≠ RANGE_OF_SIZE → nodes g' !! k = nodes g !! k) ∧
  (shouldRandomizeSeed (generation state) = true →
   nodes g' !! RANDOM_INT
     = Some (obj [("id", VStr RANDOM_INT); ("type", VStr "rand_int")]) ∧
   edges g' = edges g ++ [seed_edge]) ∧
  (shouldRandomizeSeed (generation state) = false →
   edges g' = edges g ∧
   node_field g' RANGE_OF_SIZE "start" = Some (VNum (seed (generation state))) ∧
   ∀ f, f ≠ "start" → node_field g' RANGE_OF_SIZE f = node_field g RANGE_OF_SIZE f).
Proof.
  intros Hs. split; [|split; [|split]].
  - by destruct (handle_seed_inv _ _ _ Hs) as [[_ ->]|[_ (n & _ & ->)]].
  - intros k Hr Hz. by eapply handle_seed_other_node.
  - intros Hflag. rewrite (handle_seed_random _ _ Hflag), result_ret in Hs.
    injection Hs as <-. cbn [push_edge set_node nodes edges].
    by rewrite lookup_insert_eq.
  - intros Hflag.
    destruct (handle_seed_inv _ _ _ Hs) as [[Hflag' _]|[_ (n & Hn & ->)]]; [congruence|].
    split; [done|]. split.
    + by rewrite node_field_set_node_eq, lookup_insert_eq.
    + intros f Hf. rewrite node_field_set_node_eq. unfold node_field. rewrite Hn; cbn.
      by rewrite lookup_insert_ne.
Qed.

(** Along the edges of the literal every node of the literal reaches the
    canvas output. *)
Lemma literal_reaches_output g :
  (∀ e, e ∈ initial_edges → e ∈ edges g) →
  ∀ k, k ∈ literal_ids → rtc (feeds g) k CANVAS_OUTPUT.
Proof.
  intros Hsub.
  assert (∀ a sf b df, edge a sf b df ∈ initial_edges →
            rtc (feeds g) b CANVAS_OUTPUT → rtc (feeds g) a CANVAS_OUTPUT) as Hstep.
  { intros a sf b df Hin Hb. eapply rtc_l; [|exact Hb].
    exists (edge a sf b df). split; [by apply Hsub|done]. }
  assert (rtc (feeds g) CANVAS_OUTPUT CANVAS_OUTPUT) as Hout by done.
  assert (rtc (feeds g) COLOR_CORRECT CANVAS_OUTPUT) as Hcc
    by (apply (Hstep _ "image" CANVAS_OUTPUT "image"); [unfold initial_edges; in_list|done]).
  assert (rtc (feeds g) LATENTS_TO_IMAGE CANVAS_OUTPUT) as Hdec
    by (apply (Hstep _ "image" COLOR_CORRECT "image"); [unfold initial_edges; in_list|done]).
  assert (rtc (feeds g) INPAINT CANVAS_OUTPUT) as Hden
    by (apply (Hstep _ "latents" LATENTS_TO_IMAGE "latents");
        [unfold initial_edges; in_list|done]).
  assert (rtc (feeds g) NOISE CANVAS_OUTPUT) as Hnoise
    by (apply (Hstep _ "noise" INPAINT "noise"); [unfold initial_edges; in_list|done]).
  assert (rtc (feeds g) ITERATE CANVAS_OUTPUT) as Hit
    by (apply (Hstep _ "item" NOISE "seed"); [unfold initial_edges; in_list|done]).
  assert (rtc (feeds g) RANGE_OF_SIZE CANVAS_OUTPUT) as Hrange
    by (apply (Hstep _ "collection" ITERATE "collection");
        [unfold initial_edges; in_list|done]).
  assert (rtc (feeds g) MASK_BLUR CANVAS_OUTPUT) as Hblur
    by (apply (Hstep _ "image" CANVAS_OUTPUT "mask"); [unfold initial_edges; in_list|done]).
  assert (rtc (feeds g) MASK_COMBINE CANVAS_OUTPUT) as Hcomb
    by (apply (Hstep _ "image" MASK_BLUR "image"); [unfold initial_edges; in_list|done]).
  assert (rtc (feeds g) MASK_FROM_ALPHA CANVAS_OUTPUT) as Halpha
    by (apply (Hstep _ "mask" MASK_COMBINE "mask1"); [unfold initial_edges; in_list|done]).
  assert (rtc (feeds g) INPAINT_IMAGE CANVAS_OUTPUT) as Henc
    by (apply (Hstep _ "latents" INPAINT "latents"); [unfold initial_edges; in_list|done]).
  assert (rtc (feeds g) INPAINT_INFILL CANVAS_OUTPUT) as Hinfill
    by (apply (Hstep _ "image" CANVAS_OUTPUT "base_image");
        [unfold initial_edges; in_list|done]).
  assert (rtc (feeds g) POSITIVE_CONDITIONING CANVAS_OUTPUT) as Hpos
    by (apply (Hstep _ "conditioning" INPAINT "positive_conditioning");
        [unfold initial_edges; in_list|done]).
  assert (rtc (feeds g) NEGATIVE_CONDITIONING CANVAS_OUTPUT) as Hneg
    by (apply (Hstep _ "conditioning" INPAINT "negative_conditioning");
        [unfold initial_edges; in_list|done]).
  assert (rtc (feeds g) SDXL_MODEL_LOADER CANVAS_OUTPUT) as Hloader
    by (apply (Hstep _ "unet" INPAINT "unet"); [unfold initial_edges; in_list|done]).
  unfold literal_ids, ids_before_range, ids_from_range; cbn [app]. intros k Hk.
  repeat (apply elem_of_cons in Hk as [->|Hk]; [done|]).
  by apply elem_of_nil in Hk.
Qed.

Lemma output_feeds_nothing_initially :
  distinct_ids →
  Forall (λ e, node_id (source e) ≠ CANVAS_OUTPUT) initial_edges.
Proof.
  intros Hd. unfold initial_edges.
  repeat (apply Forall_cons; split); [..|done]; cbn; ids_ne Hd.
Qed.

(** X14: in the graph the builder wires itself, the literal with the seed
    handled on it, every node reaches the canvas output along the edges,
    and no edge leaves the canvas output: it is the one sink, and nothing
    the builder creates is left unused.  The node ids are taken to be
    distinct. *)
Theorem every_node_feeds_output state md canvasInitImage canvasMaskImage :
  distinct_ids →
  ∃ g, own_graph state md canvasInitImage canvasMaskImage = mret g ∧
    (∀ k, is_Some (nodes g !! k) → rtc (feeds g) k CANVAS_OUTPUT) ∧
    (∀ k, ¬ feeds g CANVAS_OUTPUT k).
Proof.
  intros Hd. unfold own_graph.
  pose proof (output_feeds_nothing_initially Hd) as Hsink.
  destruct (shouldRandomizeSeed (generation state)) eqn:Hflag.
  - rewrite (handle_seed_random _ _ Hflag). eexists. split; [reflexivity|].
    set (g := push_edge _ _).
    assert (∀ e, e ∈ initial_edges → e ∈ edges g) as Hsub.
    { intros e He. unfold g; cbn [push_edge set_node edges initial_graph].
      apply elem_of_app. by left. }
    split.
    + intros k. unfold g at 1; cbn [push_edge set_node nodes].
      rewrite lookup_insert_is_Some', initial_nodes_present.
      intros [<-|Hk]; [|by apply literal_reaches_output].
      eapply rtc_l.
      * exists seed_edge. split; [|done].
        unfold g; cbn [push_edge set_node edges]. apply elem_of_app. right. by left.
      * apply literal_reaches_output; [done|]. literal_id.
    + intros k (e & He & Hsrc & _). unfold g in He.
      cbn [push_edge set_node edges initial_graph] in He.
      apply elem_of_app in He as [He|He%list_elem_of_singleton].
      * by apply (proj1 (Forall_forall _ _) Hsink e).
      * subst e. revert Hsrc. cbn. ids_ne Hd.
  - rewrite (handle_seed_fixed _ _ _ Hflag (initial_range _ _ _ _ Hd)).
    eexists. split; [reflexivity|].
    set (g := set_node _ _ _).
    split.
    + intros k. unfold g at 1; cbn [set_node nodes].
      rewrite lookup_insert_is_Some', initial_nodes_present.
      intros [<-|Hk]; apply literal_reaches_output; try done. literal_id.
    + intros k (e & He & Hsrc & _).
      by apply (proj1 (Forall_forall _ _) Hsink e).
Qed.

End seed_and_wiring.

(** ** The sample setting, once more *)

Lemma sample_leave_node state k :
  k ≠ "nsfw_checker" → k ≠ "invisible_watermark" →
  leave_node (K := Sample.ids) (C := Sample.collaborators) state k.
Proof.
  intros H1 H2 v. apply Forall_stages; intros g g' Hg [= <-]; try done;
    unfold Sample.append_after; cbn [push_edge set_node nodes];
    by rewrite lookup_insert_ne.
Qed.

Lemma sample_collaborators_agree_flags state1 state2 :
  same_stage_flags state1 state2 →
  collaborators_agree (K := Sample.ids) (C := Sample.collaborators) state1 state2.
Proof.
  intros (Hr & Hn & Hw). unfold collaborators_agree, stages, stages_before_seed, stages_after_seed.
  rewrite Hr, Hn, Hw. repeat case_match; cbn [app]; repeat constructor.
Qed.

(** The sample state with a fixed seed, the tile infill and no canvas
    mask: the run returns. *)
Lemma sample_fixed_run :
  let state := Sample.state (Some Sample.sdxl_base) false false true true "tile" false in
  result (Sample.run Sample.collaborators state Sample.init_image None)
  = Returns (Sample.finished Sample.collaborators state Sample.init_image None).
Proof. vm_compute. reflexivity. Qed.

(** Other scaling and auto-save settings, same run. *)
Lemma unused_settings_unobservable_witness :
  let state := Sample.state (Some Sample.sdxl_base) false true true true "tile" false in
  Sample.run Sample.collaborators state Sample.init_image None
  = Sample.run Sample.collaborators
      (set_unused_settings false {| width := 512; height := 512 |} "manual" true state)
      Sample.init_image None.
Proof.
  intros state.
  apply (unused_settings_unobservable (K := Sample.ids) (C := Sample.collaborators)).
  by apply sample_collaborators_agree_flags.
Defined.

(** Randomized seed: seed 42 or seed 7, same run. *)
Lemma seed_unread_when_randomized_witness :
  let state := Sample.state (Some Sample.sdxl_base) true false true true "tile" false in
  Sample.run Sample.collaborators state Sample.init_image None
  = Sample.run Sample.collaborators (set_seed 7 state) Sample.init_image None.
Proof.
  intros state.
  apply (seed_unread_when_randomized (K := Sample.ids) (C := Sample.collaborators));
    [reflexivity|].
  by apply sample_collaborators_agree_flags.
Defined.

(** Patch-match infill: tile size 32 or 64, same run. *)
Lemma tile_size_unread_for_patchmatch_witness :
  let state := Sample.state (Some Sample.sdxl_base) false false true true "patchmatch" false in
  Sample.run Sample.collaborators state Sample.init_image None
  = Sample.run Sample.collaborators (set_tileSize 64 state) Sample.init_image None.
Proof.
  intros state.
  apply (tile_size_unread_for_patchmatch (K := Sample.ids) (C := Sample.collaborators));
    [reflexivity|].
  by apply sample_collaborators_agree_flags.
Defined.

(** No refiner: hand-off at 0.8 or at 0.5, same run. *)
Lemma refiner_start_unread_without_refiner_witness :
  let state := Sample.state (Some Sample.sdxl_base) false false true true "tile" false in
  Sample.run Sample.collaborators state Sample.init_image None
  = Sample.run Sample.collaborators (set_refinerStart 0.5 state) Sample.init_image None.
Proof.
  intros state.
  apply (refiner_start_unread_without_refiner (K := Sample.ids)
           (C := Sample.collaborators)); [reflexivity|].
  by apply sample_collaborators_agree_flags.
Defined.

(** The output node, behind which both stand-ins append, is itself as the
    literal wrote it; so is a key the literal does not use. *)
Lemma untouched_node_kept_witness :
  let state := Sample.state (Some Sample.sdxl_base) true false true true "tile" false in
  let g := Sample.finished Sample.collaborators state Sample.init_image None in
  result (Sample.run Sample.collaborators state Sample.init_image None) = Returns g ∧
  nodes g !! "canvas_output"
    = Some (obj [("type", VStr "img_paste"); ("id", VStr "canvas_output");
                 ("is_intermediate", VBool true)]) ∧
  nodes g !! "save_image" = None.
Proof.
  intros state g.
  assert (result (Sample.run Sample.collaborators state Sample.init_image None)
          = Returns g) as Hg by (vm_compute; reflexivity).
  split; [exact Hg|]. split.
  - destruct (untouched_node_kept (K := Sample.ids) (C := Sample.collaborators)
                state Sample.init_image None g "canvas_output")
      as ((md & [= <-] & ->) & _);
      [compute_done|compute_done|by apply sample_leave_node|exact Hg|].
    vm_compute. reflexivity.
  - destruct (untouched_node_kept (K := Sample.ids) (C := Sample.collaborators)
                state Sample.init_image None g "save_image")
      as (_ & Hnone);
      [compute_done|compute_done|by apply sample_leave_node|exact Hg|].
    apply Hnone. compute_done.
Defined.

(** Concatenation switched on, an empty negative style: the styles are
    the prompt, a space and the style prompt. *)
Lemma conditioning_prompts_witness :
  let state := Sample.state (Some Sample.sdxl_base) false false true true "tile" false in
  let g := Sample.finished Sample.collaborators state Sample.init_image None in
  result (Sample.run Sample.collaborators state Sample.init_image None) = Returns g ∧
  node_field g "positive_conditioning" "prompt" = Some (VStr "a lighthouse at dusk") ∧
  node_field g "positive_conditioning" "style"
    = Some (VStr "a lighthouse at dusk oil painting") ∧
  node_field g "negative_conditioning" "style" = Some (VStr "blurry ").
Proof.
  intros state g.
  pose proof sample_fixed_run as Hg. cbv zeta in Hg. fold state g in Hg.
  split; [exact Hg|].
  destruct (conditioning_prompts (K := Sample.ids) (C := Sample.collaborators)
              state Sample.init_image None g sample_distinct_ids
              (sample_leave_node _ "positive_conditioning" ltac:(done) ltac:(done))
              (sample_leave_node _ "negative_conditioning" ltac:(done) ltac:(done)) Hg)
    as (Hp & _ & Hconcat & _).
  destruct (Hconcat eq_refl) as [Hps Hns].
  split; [exact Hp|]. split; [exact Hps | exact Hns].
Defined.

(** Precision ["fp32"]: encoder and decoder both in full precision. *)
Lemma vae_precision_flags_witness :
  let state := Sample.state (Some Sample.sdxl_base) false false true true "tile" false in
  let g := Sample.finished Sample.collaborators state Sample.init_image None in
  result (Sample.run Sample.collaborators state Sample.init_image None) = Returns g ∧
  node_field g "inpaint_image" "fp32" = Some (VBool true) ∧
  node_field g "latents_to_image" "fp32" = Some (VBool true).
Proof.
  intros state g.
  pose proof sample_fixed_run as Hg. cbv zeta in Hg. fold state g in Hg.
  split; [exact Hg|].
  destruct (vae_precision_flags (K := Sample.ids) (C := Sample.collaborators)
              state Sample.init_image None g sample_distinct_ids
              (sample_leave_node _ "inpaint_image" ltac:(done) ltac:(done))
              (sample_leave_node _ "latents_to_image" ltac:(done) ltac:(done)) Hg)
    as (Hsame & Htrue & _).
  split; [|exact (Htrue eq_refl)]. etrans; [exact Hsame | exact (Htrue eq_refl)].
Defined.

(** No canvas mask passed: [mask2] is there, with the value [undefined]. *)
Lemma mask_inputs_witness :
  let state := Sample.state (Some Sample.sdxl_base) false false true true "tile" false in
  let g := Sample.finished Sample.collaborators state Sample.init_image None in
  result (Sample.run Sample.collaborators state Sample.init_image None) = Returns g ∧
  node_field g "tomask" "image" = Some (VImage Sample.init_image) ∧
  node_field g "mask_combine" "mask2" = Some VUndefined ∧
  node_field g "mask_blur" "radius" = Some (VNum 16) ∧
  node_field g "mask_blur" "blur_type" = Some (VStr "box").
Proof.
  intros state g.
  pose proof sample_fixed_run as Hg. cbv zeta in Hg. fold state g in Hg.
  split; [exact Hg|].
  destruct (mask_inputs (K := Sample.ids) (C := Sample.collaborators)
              state Sample.init_image None g sample_distinct_ids
              (sample_leave_node _ "tomask" ltac:(done) ltac:(done))
              (sample_leave_node _ "mask_combine" ltac:(done) ltac:(done))
              (sample_leave_node _ "mask_blur" ltac:(done) ltac:(done)) Hg)
    as (Himage & _ & Hnone & _ & Hradius & Htype).
  exact (conj Himage (conj (Hnone eq_refl) (conj Hradius Htype))).
Defined.

(** The sample model, 30 steps, guidance 7.5, scheduler ["euler"]. *)
Lemma model_and_sampler_settings_witness :
  let state := Sample.state (Some Sample.sdxl_base) false false true true "tile" false in
  let g := Sample.finished Sample.collaborators state Sample.init_image None in
  result (Sample.run Sample.collaborators state Sample.init_image None) = Returns g ∧
  node_field g "sdxl_model_loader" "model" = Some (VModel Sample.sdxl_base) ∧
  node_field g "inpaint" "steps" = Some (VNum 30) ∧
  node_field g "inpaint" "cfg_scale" = Some (VNum 7.5) ∧
  node_field g "inpaint" "scheduler" = Some (VStr "euler").
Proof.
  intros state g.
  pose proof sample_fixed_run as Hg. cbv zeta in Hg. fold state g in Hg.
  split; [exact Hg|].
  destruct (model_and_sampler_settings (K := Sample.ids) (C := Sample.collaborators)
              state Sample.init_image None g sample_distinct_ids
              (sample_leave_node _ "sdxl_model_loader" ltac:(done) ltac:(done))
              (sample_leave_node _ "inpaint" ltac:(done) ltac:(done)) Hg)
    as ((md & [= <-] & Hmodel) & Hsteps & Hcfg & Hsched).
  exact (conj Hmodel (conj Hsteps (conj Hcfg Hsched))).
Defined.

(** The selector ["lama"], which the builder does not know: a tile node. *)
Lemma infill_defaults_to_tile_witness :
  let state := Sample.state (Some Sample.sdxl_base) false false true true "lama" false in
  let g := Sample.finished Sample.collaborators state Sample.init_image None in
  result (Sample.run Sample.collaborators state Sample.init_image None) = Returns g ∧
  sole_infill "inpaint_infill"
    (obj [("type", VStr "infill_tile"); ("id", VStr "inpaint_infill");
          ("is_intermediate", VBool true); ("image", VImage Sample.init_image);
          ("tile_size", VNum 32)]) g.
Proof.
  intros state g.
  assert (result (Sample.run Sample.collaborators state Sample.init_image None)
          = Returns g) as Hg by (vm_compute; reflexivity).
  split; [exact Hg|].
  exact (infill_defaults_to_tile (K := Sample.ids) (C := Sample.collaborators)
           state Sample.init_image None g sample_distinct_ids ltac:(done)
           (sample_keep_sole_infill _ _) Hg).
Defined.

(** A graph whose range already starts at 7, and seed 42: the start is 42
    afterwards. *)
Lemma handle_seed_frame_witness :
  let state := Sample.state (Some Sample.sdxl_base) false false true true "tile" false in
  let g := Sample.finished Sample.collaborators (set_seed 7 state) Sample.init_image None in
  node_field g "range_of_size" "start" = Some (VNum 7) ∧
  ∃ g', result (handle_seed (K := Sample.ids) state g) = Returns g' ∧
        node_field g' "range_of_size" "start" = Some (VNum 42) ∧
        edges g' = edges g.
Proof.
  intros state g. split; [vm_compute; reflexivity|].
  assert (∃ g', result (handle_seed (K := Sample.ids) state g) = Returns g') as [g' Hs].
  { unfold handle_seed.
    change (shouldRandomizeSeed (generation state)) with false. cbv iota.
    assert (is_Some (nodes g !! RANGE_OF_SIZE (Constants := Sample.ids))) as [n ->]
      by (vm_compute; eexists; reflexivity).
    by eexists. }
  exists g'. split; [exact Hs|].
  destruct (handle_seed_frame (K := Sample.ids) state g g' Hs) as (_ & _ & _ & Hfixed).
  destruct (Hfixed eq_refl) as (Hedges & Hstart & _). by split.
Defined.

(** The sample ids with the seed randomized: every node reaches
    ["canvas_output"], which feeds nothing. *)
Lemma every_node_feeds_output_witness :
  let state := Sample.state (Some Sample.sdxl_base) true false false false "tile" false in
  ∃ g, own_graph (K := Sample.ids) state Sample.sdxl_base Sample.init_image None = mret g ∧
    (∀ k, is_Some (nodes g !! k) → rtc (feeds g) k "canvas_output") ∧
    (∀ k, ¬ feeds g "canvas_output" k).
Proof.
  intros state.
  exact (every_node_feeds_output (K := Sample.ids) state Sample.sdxl_base
           Sample.init_image None sample_distinct_ids).
Defined.
